(** * dfjson: distributed-file JSON codec

    A shallow embedding of the encoder ([Marshal], [encodeState.encode]) and
    of the decoder ([Unmarshal], [decodeState.decode],
    [decodeState.truncateLastBracket]) of the dfjson package, together with
    the properties its design document states about them.

    Go strings and byte slices are both sequences of bytes; they are modelled
    by [string], whose characters are 8-bit.  Paths use the Unix separator. *)

From Stdlib Require Import Bool Arith ZArith NArith Lia List Ascii String.
From Stdlib Require Import DecimalString.
Import ListNotations.

Set Warnings "-register-all".

Local Open Scope string_scope.
Local Open Scope Z_scope.

(** ** Outcomes of a call *)

(** A Go call returns normally, returns a non-nil [error], or panics.
    [OutOfFuel] is an artefact of the embedding only: it is the outcome of a
    recursive walk that was given too little fuel. *)
Inductive result (A : Type) : Type :=
| Ok (a : A)
| Error (msg : string)
| Panic (msg : string)
| OutOfFuel.

Arguments Ok {A} a.
Arguments Error {A} msg.
Arguments Panic {A} msg.
Arguments OutOfFuel {A}.

Definition bind {A B : Type} (r : result A) (k : A -> result B) : result B :=
  match r with
  | Ok a => k a
  | Error msg => Error msg
  | Panic msg => Panic msg
  | OutOfFuel => OutOfFuel
  end.

Notation "x <- r ;; k" := (bind r (fun x => k))
  (at level 61, r at next level, right associativity).
Notation "' p <- r ;; k" := (bind r (fun p => k))
  (at level 61, p pattern, r at next level, right associativity).

(** ** Strings *)

Module Str.

(** The one-character string holding a double quote. *)
Definition dquote : string := String "034"%char EmptyString.

(** [s[n:]] for [n <= len(s)]. *)
Fixpoint skip (n : nat) (s : string) : string :=
  match n, s with
  | O, _ => s
  | S n', String _ s' => skip n' s'
  | S _, EmptyString => EmptyString
  end.

(** [s[:n]] for [n <= len(s)]. *)
Definition take (n : nat) (s : string) : string := substring 0 n s.

(** [strings.Index(s, substr)], -1 when absent. *)
Definition Index (s substr : string) : Z :=
  match index 0 substr s with
  | Some i => Z.of_nat i
  | None => -1
  end.

(** [strings.Contains(s, substr)]. *)
Definition Contains (s substr : string) : bool := 0 <=? Index s substr.

(** [strings.ReplaceAll(s, old, new)] for one-byte [old] and [new]. *)
Fixpoint ReplaceAll (s : string) (old new : ascii) : string :=
  match s with
  | EmptyString => EmptyString
  | String c s' =>
      String (if Ascii.eqb c old then new else c) (ReplaceAll s' old new)
  end.

(** JSON text is written in this development with single quotes standing
    for double quotes; [js] puts the double quotes back. *)
Definition js (s : string) : string := ReplaceAll s "'"%char "034"%char.

End Str.

(** ** unicode/utf8 *)

Module utf8.

Local Open Scope N_scope.

Definition RuneError : N := 65533.

(** The table [first]: information about the first byte of an encoding. *)
Definition first (b : N) : N :=
  if b <? 128 then 240            (* as: ASCII *)
  else if b <? 194 then 241       (* xx: invalid *)
  else if b <? 224 then 2         (* s1 *)
  else if b =? 224 then 19        (* s2 *)
  else if b <? 237 then 3         (* s3 *)
  else if b =? 237 then 35        (* s4 *)
  else if b <? 240 then 3         (* s3 *)
  else if b =? 240 then 52        (* s5 *)
  else if b <? 244 then 4         (* s6 *)
  else if b =? 244 then 68        (* s7 *)
  else 241.                       (* xx *)

(** [acceptRanges]: the bounds on the second byte. *)
Definition acceptRanges (i : N) : N * N :=
  if i =? 1 then (160, 191)
  else if i =? 2 then (128, 159)
  else if i =? 3 then (144, 191)
  else if i =? 4 then (128, 143)
  else (128, 191).

Definition locb : N := 128.
Definition hicb : N := 191.

Definition byteAt (p : string) (i : nat) : N :=
  match get i p with
  | Some c => N_of_ascii c
  | None => 0
  end.

(** [utf8.DecodeRune(p)]: the first rune of [p] and its width in bytes. *)
Definition DecodeRune (p : string) : N * nat :=
  let n := N.of_nat (String.length p) in
  if n <? 1 then (RuneError, 0%nat)
  else
    let p0 := byteAt p 0 in
    let x := first p0 in
    if 240 <=? x then
      ((if N.testbit x 0 then RuneError else p0), 1%nat)
    else
      let sz := N.land x 7 in
      let accept := acceptRanges (N.shiftr x 4) in
      if n <? sz then (RuneError, 1%nat)
      else
        let b1 := byteAt p 1 in
        if (b1 <? fst accept) || (snd accept <? b1) then (RuneError, 1%nat)
        else if sz <=? 2 then
          (N.lor (N.shiftl (N.land p0 31) 6) (N.land b1 63), 2%nat)
        else
          let b2 := byteAt p 2 in
          if (b2 <? locb) || (hicb <? b2) then (RuneError, 1%nat)
          else if sz <=? 3 then
            (N.lor (N.lor (N.shiftl (N.land p0 15) 12)
                          (N.shiftl (N.land b1 63) 6))
                   (N.land b2 63), 3%nat)
          else
            let b3 := byteAt p 3 in
            if (b3 <? locb) || (hicb <? b3) then (RuneError, 1%nat)
            else
              (N.lor (N.lor (N.lor (N.shiftl (N.land p0 7) 18)
                                   (N.shiftl (N.land b1 63) 12))
                            (N.shiftl (N.land b2 63) 6))
                     (N.land b3 63), 4%nat).

End utf8.

(** ** bytes.Buffer *)

Module Buffer.

(** [b.Truncate(n)]: keep the first [n] bytes; panics out of range. *)
Definition Truncate (b : string) (n : Z) : result string :=
  if n =? 0 then Ok EmptyString
  else if (n <? 0) || (Z.of_nat (String.length b) <? n)
       then Panic "bytes.Buffer: truncation out of range"
       else Ok (Str.take (Z.to_nat n) b).

End Buffer.

(** ** The decoder's state *)

Record decodeState : Type := mkDecodeState {
  buf : string;
  incomingBuf : string;
  hasMergeConflict : bool
}.

(** A fresh [var state decodeState]. *)
Definition newDecodeState : decodeState :=
  {| buf := EmptyString; incomingBuf := EmptyString;
     hasMergeConflict := false |}.

(** The rune of the closing bracket. *)
Definition closeBracket : N := 125.

(** The scanning loop of [truncateLastBracket]: [rest] is [data[i:]]. *)
Fixpoint lastBracketLoop (fuel : nat) (rest : string)
    (i lastBracketIndex : Z) : Z :=
  match fuel with
  | O => lastBracketIndex
  | S fuel' =>
      match rest with
      | EmptyString => lastBracketIndex
      | String _ _ =>
          let '(r, n) := utf8.DecodeRune rest in
          lastBracketLoop fuel' (Str.skip n rest) (i + Z.of_nat n)
            (if N.eqb r closeBracket then i else lastBracketIndex)
      end
  end.

Definition lastBracketIndexOf (data : string) : Z :=
  lastBracketLoop (String.length data) data 0 (-1).

(** [state.truncateLastBracket()]: the flag tells whether the operation
    happened. *)
Definition truncateLastBracket (state : decodeState)
    : result (bool * decodeState) :=
  let lastBracketIndex := lastBracketIndexOf (buf state) in
  if negb (lastBracketIndex =? -1) then
    b <- Buffer.Truncate (buf state) lastBracketIndex ;;
    ib <- Buffer.Truncate (incomingBuf state) lastBracketIndex ;;
    Ok (true, {| buf := b; incomingBuf := ib;
                 hasMergeConflict := hasMergeConflict state |})
  else Ok (false, state).

(** [state.WriteAll(b)], [state.WriteRuneAll(r)] and
    [state.WriteStringAll(str)] append the same bytes to both buffers; the
    writes of a [bytes.Buffer] never return an error. *)
Definition WriteAll (state : decodeState) (b : string) : decodeState :=
  {| buf := buf state ++ b; incomingBuf := incomingBuf state ++ b;
     hasMergeConflict := hasMergeConflict state |}.

Definition WriteStringAll (state : decodeState) (str : string) : decodeState :=
  WriteAll state str.

(** Only the ASCII runes ['{'] and ['}'] are ever written. *)
Definition WriteRuneAll (state : decodeState) (r : ascii) : decodeState :=
  WriteAll state (String r EmptyString).

(** ** path/filepath (Unix) *)

Module filepath.

Definition Separator : ascii := "/"%char.

(** The elements of a path between separators, empty ones included. *)
Fixpoint split (s : string) : list string :=
  match s with
  | EmptyString => [EmptyString]
  | String c s' =>
      match split s' with
      | [] => [EmptyString]
      | e :: es =>
          if Ascii.eqb c Separator then EmptyString :: e :: es
          else String c e :: es
      end
  end.

Definition join (elems : list string) : string :=
  String.concat "/" elems.

(** The lexical processing of [Clean], element by element; [out] is the
    output so far, last element first. *)
Fixpoint cleanElems (rooted : bool) (elems out : list string)
    : list string :=
  match elems with
  | [] => rev out
  | e :: elems' =>
      if String.eqb e EmptyString then cleanElems rooted elems' out
      else if String.eqb e "." then cleanElems rooted elems' out
      else if String.eqb e ".." then
        match out with
        | top :: out' =>
            if String.eqb top ".." then cleanElems rooted elems' (e :: out)
            else cleanElems rooted elems' out'
        | [] =>
            if rooted then cleanElems rooted elems' out
            else cleanElems rooted elems' (e :: out)
        end
      else cleanElems rooted elems' (e :: out)
  end.

(** [filepath.Clean(path)]. *)
Definition Clean (path : string) : string :=
  match path with
  | EmptyString => "."
  | String c _ =>
      let rooted := Ascii.eqb c Separator in
      let body := join (cleanElems rooted (split path) []) in
      if rooted then String Separator body
      else if String.eqb body EmptyString then "." else body
  end.

(** [path[:i+1]] for the last separator [i] of [path]. *)
Fixpoint upToLastSeparator (path : string) : string :=
  match path with
  | EmptyString => EmptyString
  | String c path' =>
      let rest := upToLastSeparator path' in
      if Ascii.eqb c Separator then String c rest
      else match rest with
           | EmptyString => EmptyString
           | String _ _ => String c rest
           end
  end.

(** [filepath.Dir(path)]. *)
Definition Dir (path : string) : string :=
  Clean (upToLastSeparator path).

(** [filepath.Abs(path)] in the working directory [wd]. *)
Definition Abs (wd path : string) : string :=
  match path with
  | String c _ =>
      if Ascii.eqb c Separator then Clean path
      else Clean (wd ++ "/" ++ path)
  | EmptyString => Clean wd
  end.

End filepath.

(** Backslashes are turned into slashes wherever the code normalizes a
    path. *)
Definition toSlash (s : string) : string :=
  Str.ReplaceAll s "\"%char "/"%char.

(** ** The file system *)

(** What [os.Open] followed by [ioutil.ReadAll] gives for a path. *)
Inductive fileRead : Type :=
| Found (b : string)
| NotExist
| IOError (msg : string).

(** A [godirwalk.Dirent]. *)
Record Dirent : Type := mkDirent {
  DirentName : string;
  IsDir : bool
}.

Record FileSystem : Type := mkFileSystem {
  readFile : string -> fileRead;
  ReadDirents : string -> result (list Dirent);
  Getwd : string
}.

(** ** dfvcs.VCSDriver *)

(** What [HandleFile(path, &ours, &theirs)] does: it declines, or it appends
    one version of the file to each buffer and reports the file handled, or
    it fails. *)
Inductive handled : Type :=
| Declined
| Contested (ours theirs : string)
| DriverError (msg : string).

Record VCSDriver : Type := mkVCSDriver {
  Init : option string;
  HandleFile : string -> handled
}.

(** ** decodeState.decode *)

Section Decoder.

Variable fs : FileSystem.
(** [state.vscDriver]; [None] is the nil driver. *)
Variable vscDriver : option VCSDriver.

(** The first block of [decode]: the entry file, from the driver or from
    the file system.  The flag is the common value of [hasOpenedBracket]
    and [hasClosingBracket] after the block. *)
Definition readEntryFile (path : string) (state : decodeState)
    : result (bool * decodeState) :=
  '(fileHandledByVCSDriver, state) <-
    match vscDriver with
    | Some driver =>
        match HandleFile driver path with
        | DriverError msg => Panic msg
        | Contested ours theirs =>
            Ok (true, {| buf := buf state ++ ours;
                         incomingBuf := incomingBuf state ++ theirs;
                         hasMergeConflict := true |})
        | Declined => Ok (false, state)
        end
    | None => Ok (false, state)
    end ;;
  if negb fileHandledByVCSDriver then
    match readFile fs path with
    | IOError msg => Panic msg
    | NotExist => Ok (false, state)
    | Found b => Ok (true, WriteAll state b)
    end
  else Ok (true, state).

(** The loop over [dirList]; [decode] is the recursive call.  It returns
    [hasClosingBracket] and the state after the last entry. *)
Fixpoint decodeDirList (decode : string -> decodeState -> result decodeState)
    (topDir : string) (dirList : list Dirent)
    (hasWrittenFirstField hasClosingBracket : bool) (state : decodeState)
    : result (bool * decodeState) :=
  match dirList with
  | [] => Ok (hasClosingBracket, state)
  | fileOrDir :: dirList' =>
      if negb (IsDir fileOrDir) then
        decodeDirList decode topDir dirList'
          hasWrittenFirstField hasClosingBracket state
      else
        '(hasClosingBracket, state) <-
          (if hasWrittenFirstField then
             Ok (hasClosingBracket, WriteStringAll state ",")
           else
             '(truncated, state) <- truncateLastBracket state ;;
             if truncated then Ok (false, WriteStringAll state ",")
             else Ok (hasClosingBracket, state)) ;;
        let dir := DirentName fileOrDir in
        let state :=
          WriteStringAll state (Str.dquote ++ dir ++ Str.dquote ++ ":") in
        let path := topDir ++ "/" ++ toSlash dir ++ "/index.json" in
        state <- decode path state ;;
        decodeDirList decode topDir dirList' true hasClosingBracket state
  end.

Fixpoint decode (fuel : nat) (path : string) (state : decodeState)
    : result decodeState :=
  match fuel with
  | O => OutOfFuel
  | S fuel' =>
      (* Read JSON entry file (if it exists) *)
      '(hasBracket, state) <- readEntryFile path state ;;
      let hasOpenedBracket := hasBracket in
      let hasClosingBracket := hasBracket in
      let state :=
        if negb hasOpenedBracket then WriteRuneAll state "{"%char
        else state in
      (* Read distributed data *)
      let topDir := toSlash (filepath.Dir path) in
      dirList <-
        match ReadDirents fs topDir with
        | Ok dirList => Ok dirList
        | Error msg | Panic msg => Panic msg
        | OutOfFuel => OutOfFuel
        end ;;
      '(hasClosingBracket, state) <-
        decodeDirList (decode fuel') topDir dirList
          false hasClosingBracket state ;;
      if negb hasClosingBracket then Ok (WriteRuneAll state "}"%char)
      else Ok state
  end.

End Decoder.

(** ** encoding/json: reading *)

Module json.

(** A parsed JSON text.  A number keeps its literal, a string the bytes
    between its quotes (escapes are checked and left as written), and an
    object its members in the order of the text. *)
Inductive value : Type :=
| JNull
| JBool (b : bool)
| JNumber (literal : string)
| JString (s : string)
| JArray (elements : list value)
| JObject (members : list (string * value)).

Definition isSpace (c : ascii) : bool :=
  Ascii.eqb c " "%char || Ascii.eqb c "009"%char
  || Ascii.eqb c "013"%char || Ascii.eqb c "010"%char.

Fixpoint skipSpace (s : string) : string :=
  match s with
  | String c s' => if isSpace c then skipSpace s' else s
  | EmptyString => s
  end.

Definition isDigit (c : ascii) : bool :=
  let n := N_of_ascii c in ((48 <=? n) && (n <=? 57))%N.

Definition isHex (c : ascii) : bool :=
  let n := N_of_ascii c in
  (((48 <=? n) && (n <=? 57)) || ((65 <=? n) && (n <=? 70))
   || ((97 <=? n) && (n <=? 102)))%N.

Definition isEscape (c : ascii) : bool :=
  existsb (Ascii.eqb c)
    ["034"; "\"; "/"; "b"; "f"; "n"; "r"; "t"]%char.

Definition hex4 (s : string) : bool :=
  match s with
  | String a (String b (String c (String d _))) =>
      isHex a && isHex b && isHex c && isHex d
  | _ => false
  end.

(** The rest of a string literal after its opening quote: the bytes up to
    the closing quote, and what follows it. *)
Fixpoint parseString (s : string) : option (string * string) :=
  match s with
  | EmptyString => None
  | String c s' =>
      if Ascii.eqb c "034"%char then Some (EmptyString, s')
      else if Ascii.eqb c "\"%char then
        match s' with
        | String e s'' =>
            if isEscape e || (Ascii.eqb e "u"%char && hex4 s'') then
              match parseString s'' with
              | Some (body, rest) => Some (String c (String e body), rest)
              | None => None
              end
            else None
        | EmptyString => None
        end
      else if (N_of_ascii c <? 32)%N then None
      else
        match parseString s' with
        | Some (body, rest) => Some (String c body, rest)
        | None => None
        end
  end.

(** The longest prefix of digits, and what follows it. *)
Fixpoint digits (s : string) : string * string :=
  match s with
  | String c s' =>
      if isDigit c then
        let '(ds, rest) := digits s' in (String c ds, rest)
      else (EmptyString, s)
  | EmptyString => (EmptyString, s)
  end.

Definition startsWith (c : ascii) (s : string) : bool :=
  match s with
  | String c' _ => Ascii.eqb c c'
  | EmptyString => false
  end.

Definition parseNumber (s : string) : option (string * string) :=
  let '(sign, s) :=
    if startsWith "-" s then ("-", Str.skip 1 s) else (EmptyString, s) in
  let '(int, s) := digits s in
  if String.eqb int EmptyString
     || (startsWith "0" int && negb (String.eqb int "0")) then None
  else
    let frac :=
      if startsWith "." s then
        let '(ds, s') := digits (Str.skip 1 s) in
        if String.eqb ds EmptyString then None
        else Some ("." ++ ds, s')
      else Some (EmptyString, s) in
    match frac with
    | None => None
    | Some (frac, s) =>
        match s with
        | String e s' =>
            if Ascii.eqb e "e" || Ascii.eqb e "E" then
              let '(esign, s') :=
                match s' with
                | String g s'' =>
                    if Ascii.eqb g "+" || Ascii.eqb g "-"
                    then (String g EmptyString, s'')
                    else (EmptyString, s')
                | EmptyString => (EmptyString, s')
                end in
              let '(ds, s') := digits s' in
              if String.eqb ds EmptyString then None
              else
                Some (sign ++ int ++ frac ++ String e esign ++ ds, s')
            else Some (sign ++ int ++ frac, s)
        | EmptyString => Some (sign ++ int ++ frac, s)
        end
    end.

Definition parseLiteral (word : string) (v : value) (s : string)
    : option (value * string) :=
  if prefix word s then Some (v, Str.skip (String.length word) s)
  else None.

Fixpoint parseValue (fuel : nat) (s : string) {struct fuel}
    : option (value * string) :=
  match fuel with
  | O => None
  | S fuel' =>
      match skipSpace s with
      | EmptyString => None
      | String c rest =>
          if Ascii.eqb c "{" then
            if startsWith "}" (skipSpace rest)
            then Some (JObject [], Str.skip 1 (skipSpace rest))
            else parseMembers fuel' rest []
          else if Ascii.eqb c "[" then
            if startsWith "]" (skipSpace rest)
            then Some (JArray [], Str.skip 1 (skipSpace rest))
            else parseElements fuel' rest []
          else if Ascii.eqb c "034" then
            match parseString rest with
            | Some (body, rest') => Some (JString body, rest')
            | None => None
            end
          else if Ascii.eqb c "t" then
            parseLiteral "true" (JBool true) (String c rest)
          else if Ascii.eqb c "f" then
            parseLiteral "false" (JBool false) (String c rest)
          else if Ascii.eqb c "n" then
            parseLiteral "null" JNull (String c rest)
          else
            match parseNumber (String c rest) with
            | Some (literal, rest') => Some (JNumber literal, rest')
            | None => None
            end
      end
  end
with parseMembers (fuel : nat) (s : string)
    (acc : list (string * value)) {struct fuel}
    : option (value * string) :=
  match fuel with
  | O => None
  | S fuel' =>
      match skipSpace s with
      | EmptyString => None
      | String c rest =>
          if Ascii.eqb c "034" then
            match parseString rest with
            | None => None
            | Some (key, rest) =>
                if startsWith ":" (skipSpace rest) then
                  match parseValue fuel' (Str.skip 1 (skipSpace rest)) with
                  | None => None
                  | Some (v, rest) =>
                      let rest := skipSpace rest in
                      if startsWith "," rest then
                        parseMembers fuel' (Str.skip 1 rest)
                          ((key, v) :: acc)
                      else if startsWith "}" rest then
                        Some (JObject (rev ((key, v) :: acc)),
                              Str.skip 1 rest)
                      else None
                  end
                else None
            end
          else None
      end
  end
with parseElements (fuel : nat) (s : string) (acc : list value)
    {struct fuel} : option (value * string) :=
  match fuel with
  | O => None
  | S fuel' =>
      match parseValue fuel' s with
      | None => None
      | Some (v, rest) =>
          let rest := skipSpace rest in
          if startsWith "," rest then
            parseElements fuel' (Str.skip 1 rest) (v :: acc)
          else if startsWith "]" rest then
            Some (JArray (rev (v :: acc)), Str.skip 1 rest)
          else None
      end
  end.

(** The value a complete JSON text stands for, if it is one. *)
Definition parse (data : string) : option value :=
  match parseValue (S (String.length data)) data with
  | Some (v, rest) =>
      if String.eqb (skipSpace rest) EmptyString then Some v else None
  | None => None
  end.

(** [json.Unmarshal(data, v)], as far as the value stored is concerned. *)
Definition Unmarshal (data : string) : result value :=
  match parse data with
  | Some v => Ok v
  | None => Error "invalid JSON"
  end.

(** The member of an object under a key ([None] for other values). *)
Definition member (key : string) (v : value) : option value :=
  match v with
  | JObject members =>
      match find (fun kv => String.eqb (fst kv) key) (rev members) with
      | Some kv => Some (snd kv)
      | None => None
      end
  | _ => None
  end.

(** The keys of an object, in the order of the text. *)
Definition keys (v : value) : list string :=
  match v with
  | JObject members => map fst members
  | _ => []
  end.

(** [newline(dst, prefix, indent, depth)] *)
Fixpoint repeat (indent : string) (depth : nat) : string :=
  match depth with
  | O => EmptyString
  | S depth' => indent ++ repeat indent depth'
  end.

Definition newline (prefix indent : string) (depth : nat) : string :=
  String "010"%char (prefix ++ repeat indent depth).

Definition isClosing (c : ascii) : bool :=
  Ascii.eqb c "}" || Ascii.eqb c "]".

(** The formatting loop of [Indent] over a valid text.  Bytes inside a
    string literal are copied, white space outside is dropped, and
    spacing is added around punctuation. *)
Fixpoint indentLoop (prefix indent : string) (src : string)
    (inString escaped needIndent : bool) (depth : nat) : string :=
  match src with
  | EmptyString => EmptyString
  | String c src' =>
      if inString then
        String c
          (if escaped then
             indentLoop prefix indent src' true false needIndent depth
           else if Ascii.eqb c "\" then
             indentLoop prefix indent src' true true needIndent depth
           else if Ascii.eqb c "034" then
             indentLoop prefix indent src' false false needIndent depth
           else indentLoop prefix indent src' true false needIndent depth)
      else if isSpace c then
        indentLoop prefix indent src' false false needIndent depth
      else if needIndent && negb (isClosing c) then
        (* the first byte inside an object or array that is not empty *)
        newline prefix indent (S depth)
        ++ String c
             (if Ascii.eqb c "{" || Ascii.eqb c "[" then
                indentLoop prefix indent src' false false true (S depth)
              else
                indentLoop prefix indent src'
                  (Ascii.eqb c "034") false false (S depth))
      else if Ascii.eqb c "{" || Ascii.eqb c "[" then
        String c (indentLoop prefix indent src' false false true depth)
      else if Ascii.eqb c "," then
        String c (newline prefix indent depth
                  ++ indentLoop prefix indent src' false false false depth)
      else if Ascii.eqb c ":" then
        String c (String " "
                    (indentLoop prefix indent src' false false false depth))
      else if isClosing c then
        if needIndent then
          (* suppress indent in empty object/array *)
          String c (indentLoop prefix indent src' false false false depth)
        else
          newline prefix indent (Nat.pred depth)
          ++ String c (indentLoop prefix indent src'
                         false false false (Nat.pred depth))
      else
        String c (indentLoop prefix indent src'
                    (Ascii.eqb c "034") false false depth)
  end.

(** [json.Indent(&dst, src, prefix, indent)] into an empty [dst]: the
    indented text, or an error when [src] is not a JSON text. *)
Definition Indent (src prefix indent : string) : result string :=
  match parse src with
  | Some _ => Ok (indentLoop prefix indent src false false false 0)
  | None => Error "invalid JSON"
  end.

End json.

(** ** reflect: the values the encoder walks *)

Inductive Kind : Type :=
| Struct
| Map
| Ptr
| OtherKind (name : string).

(** The parts of a [reflect.StructField] the encoder reads.  [Tag] is the
    struct tag as its key/value pairs. *)
Record StructField : Type := mkStructField {
  Name : string;
  PkgPath : string;
  Anonymous : bool;
  Tag : list (string * string)
}.

(** A map key, by the way its string is obtained: an
    [encoding.TextMarshaler] gives the outcome of [MarshalText], any other
    key the text [fmt.Sprintf] prints for it. *)
Inductive MapKey : Type :=
| TextKey (text : result string)
| PlainKey (formatted : string).

(** A Go value as seen through [reflect]: a struct with its fields in
    declaration order, a map with its entries in the order of [MapKeys], a
    (non-nil) pointer, an [int], or a value of some other kind. *)
Inductive value : Type :=
| StructValue (fields : list (StructField * value))
| MapValue (entries : list (MapKey * value))
| PtrValue (elem : value)
| IntValue (n : Z)
| OtherValue (kind : string) (repr : string).

Definition kindOf (v : value) : Kind :=
  match v with
  | StructValue _ => Struct
  | MapValue _ => Map
  | PtrValue _ => Ptr
  | IntValue _ => OtherKind "int"
  | OtherValue kind _ => OtherKind kind
  end.

Definition isStruct (k : Kind) : bool :=
  match k with
  | Struct => true
  | _ => false
  end.

Module StructTag.

(** [tag.Lookup(key)] *)
Fixpoint Lookup (tag : list (string * string)) (key : string)
    : option string :=
  match tag with
  | [] => None
  | (k, v) :: tag' => if String.eqb k key then Some v else Lookup tag' key
  end.

(** [tag.Get(key)] *)
Definition Get (tag : list (string * string)) (key : string) : string :=
  match Lookup tag key with
  | Some v => v
  | None => EmptyString
  end.

End StructTag.

(** ** The encoder *)

(** JSONFile is data structure returned from Marshal *)
Record JSONFile : Type := mkJSONFile {
  Path : string;
  Data : string
}.

Record encodeState : Type := mkEncodeState {
  Directory : string;
  Paths : list JSONFile
}.

(** What the field loop of [encode] decides for a field before it looks at
    the value. *)
Inductive fieldClass : Type :=
| Skipped
| Unsupported (msg : string)
| Distributed (jsonFieldName : string)
| Inline (jsonFieldName : string).

(** [t.Kind()] for the type [t] of an embedded field, a pointer type
    replaced by its element type. *)
Definition embeddedKind (field : value) : Kind :=
  match field with
  | PtrValue elem => kindOf elem
  | _ => kindOf field
  end.

Definition isUnexported (fieldType : StructField) : bool :=
  negb (String.eqb (PkgPath fieldType) EmptyString).

(** The name and the options of a [json] tag: the text before and after
    its first comma. *)
Definition jsonTag (fieldType : StructField) : string :=
  StructTag.Get (Tag fieldType) "json".

Definition tagName (tag : string) : string :=
  let idx := Str.Index tag "," in
  if negb (idx =? -1) then Str.take (Z.to_nat idx) tag else tag.

Definition tagOptions (tag : string) : string :=
  let idx := Str.Index tag "," in
  if negb (idx =? -1) then Str.skip (Z.to_nat (idx + 1)) tag
  else EmptyString.

(** The tests of the field loop, in the order of the code. *)
Definition classify (fieldType : StructField) (field : value) : fieldClass :=
  (* Ignore unexported field *)
  if (if Anonymous fieldType
      then isUnexported fieldType && negb (isStruct (embeddedKind field))
      else isUnexported fieldType)
  then Skipped
  else
    let tag := jsonTag fieldType in
    if String.eqb tag "-" then Skipped
    else
      let jsonOptions := tagOptions tag in
      let jsonFieldName :=
        if String.eqb (tagName tag) EmptyString
        then Name fieldType (* Default to Golang struct field name *)
        else tagName tag in
      if Str.Contains jsonOptions "omitempty" then Skipped
      else if Str.Contains jsonOptions "string"
      then Unsupported ("No support for " ++ Str.dquote ++ "string"
                        ++ Str.dquote ++ " in DFJSON.")
      else
        match StructTag.Lookup (Tag fieldType) "dfjson" with
        | Some tagValue =>
            if String.eqb tagValue "distributable"
            then Distributed jsonFieldName
            else Inline jsonFieldName
        | None => Inline jsonFieldName
        end.

(** [mapKey]'s string. *)
Definition keyString (mapKey : MapKey) : result string :=
  match mapKey with
  | TextKey text => text
  | PlainKey formatted => Ok formatted
  end.

(** [field.Interface()] panics on a field reached through an unexported
    (embedded) field. *)
Definition Interface (fieldType : StructField) : result unit :=
  if isUnexported fieldType
  then Panic "reflect.Value.Interface: cannot return value obtained from unexported field or method"
  else Ok tt.

Section Encoder.

(** [json.Marshal] of encoding/json, on the value of a field. *)
Variable json_Marshal : value -> result string.

Section Loops.

(** The recursive calls [state.encode(path, data)], on a value and on a
    pointer to a value. *)
Variable encode : string -> value -> encodeState -> result encodeState.
Variable encodeElem : string -> value -> encodeState -> result encodeState.

(** The loop over [topMapValue.MapKeys()]. *)
Fixpoint mapKeys (path : string) (entries : list (MapKey * value))
    (state : encodeState) : result encodeState :=
  match entries with
  | [] => Ok state
  | (mapKey, mapValue) :: entries' =>
      keyStringValue <- keyString mapKey ;;
      match mapValue with
      | StructValue _ =>
          (* mapValue.Addr(): a map element is not addressable *)
          Panic "reflect.Value.Addr of unaddressable value"
      | data =>
          let dir := toSlash (filepath.Dir path) in
          state <- encode (dir ++ "/" ++ keyStringValue ++ "/index.json")
                     data state ;;
          mapKeys path entries' state
      end
  end.

(** The loop over the fields of [el], and what follows it. *)
Fixpoint numField (path : string) (fields : list (StructField * value))
    (buf : string) (hasWrittenFirstField : bool) (state : encodeState)
    : result encodeState :=
  match fields with
  | [] =>
      let buf := if hasWrittenFirstField then buf ++ "}" else buf in
      Ok {| Directory := Directory state;
            Paths := Paths state ++ [{| Path := path; Data := buf |}] |}
  | (fieldType, field) :: fields' =>
      match classify fieldType field with
      | Skipped => numField path fields' buf hasWrittenFirstField state
      | Unsupported msg => Panic msg
      | Distributed jsonFieldName =>
          _ <- Interface fieldType ;;
          let path' := filepath.Dir path ++ "/" ++ jsonFieldName ++ "/" in
          state <-
            match field with
            | StructValue _ => encodeElem path' field state
            | data => encode path' data state
            end ;;
          numField path fields' buf hasWrittenFirstField state
      | Inline jsonFieldName =>
          _ <- Interface fieldType ;;
          fieldValue <- json_Marshal field ;;
          let buf := if hasWrittenFirstField then buf ++ "," else buf in
          let buf :=
            buf ++ Str.dquote ++ jsonFieldName ++ Str.dquote ++ ":" in
          let buf := buf ++ fieldValue in
          numField path fields' buf true state
      end
  end.

End Loops.

(** [state.encode(path, value)], and [encodeElem], which is [encode] at a
    pointer to [el]: the case [reflect.Ptr]. *)
Fixpoint encode (path : string) (v : value) (state : encodeState)
    {struct v} : result encodeState :=
  match v with
  | StructValue _ =>
      Panic "Unexpected error. Must transform struct to pointer before calling encode"
  | MapValue entries => mapKeys encode path entries state
  | PtrValue el => encodeElem path el state
  | IntValue _ => Panic "Unhandled kind: int"
  | OtherValue kind _ => Panic ("Unhandled kind: " ++ kind)
  end
with encodeElem (path : string) (el : value) (state : encodeState)
    {struct el} : result encodeState :=
  match el with
  | StructValue fields =>
      numField encode encodeElem path fields "{" false state
  | _ => Panic "reflect: call of reflect.Value.NumField on non-struct Value"
  end.

Definition marshal (entryFilename : string) (v : value)
    : result (list JSONFile) :=
  state <- encode entryFilename v
             {| Directory := EmptyString; Paths := [] |} ;;
  Ok (Paths state).

(** marshalIndent applies Indent to format the output of each JSON file. *)
Fixpoint indentAll (files : list JSONFile) (prefix indent : string)
    : result (list JSONFile) :=
  match files with
  | [] => Ok []
  | item :: files' =>
      data <- json.Indent (Data item) prefix indent ;;
      rest <- indentAll files' prefix indent ;;
      Ok ({| Path := Path item; Data := data |} :: rest)
  end.

Definition marshalIndent (entryFilename : string) (v : value)
    (prefix indent : string) : result (list JSONFile) :=
  files <- marshal entryFilename v ;;
  indentAll files prefix indent.

Definition Marshal (entryFilename : string) (v : value)
    : result (list JSONFile) :=
  marshalIndent entryFilename v EmptyString (String "009"%char EmptyString).

End Encoder.

(** ** Unmarshal *)

Section Unmarshal.

Variable fs : FileSystem.

(** [Unmarshal(entryFilename, v, incomingV, vcsDriver)].  Of [v] only its
    kind matters to the walk; the values stored in [v] and [incomingV] are
    returned as parsed JSON.  [fuel] bounds the depth of the walk. *)
Definition Unmarshal (fuel : nat) (entryFilename : string) (v : Kind)
    (vcsDriver : option VCSDriver)
    : result (bool * json.value * option json.value) :=
  match v with
  | Ptr =>
      _ <- match vcsDriver with
           | Some driver =>
               match Init driver with
               | Some err => Error err
               | None => Ok tt
               end
           | None => Ok tt
           end ;;
      let absEntryFilename := filepath.Abs (Getwd fs) entryFilename in
      (* normalize paths to use / for every OS, even Windows *)
      let absEntryFilename := toSlash absEntryFilename in
      state <- decode fs vcsDriver fuel absEntryFilename newDecodeState ;;
      let bufBytes := buf state in
      match json.Unmarshal bufBytes with
      | Ok parsed =>
          if hasMergeConflict state then
            match json.Unmarshal (incomingBuf state) with
            | Ok incoming => Ok (true, parsed, Some incoming)
            | _ => Panic ("failed to parse incoming:" ++ incomingBuf state)
            end
          else Ok (false, parsed, None)
      | _ => Panic ("failed to parse:" ++ bufBytes)
      end
  | _ => Error "Must provide pointer value"
  end.

End Unmarshal.

(** ** Artifacts on disk *)

Module Disk.

(** [rest] when [path] is [dir ++ "/" ++ rest] with [rest] not empty. *)
Definition below (dir path : string) : option string :=
  let dir := if String.eqb dir "/" then EmptyString else dir in
  if prefix (dir ++ "/") path
  then match Str.skip (String.length dir + 1) path with
       | EmptyString => None
       | rest => Some rest
       end
  else None.

(** The entry of [dir] a path below it goes through. *)
Definition entryOf (rest : string) : Dirent :=
  match filepath.split rest with
  | [name] => {| DirentName := name; IsDir := false |}
  | name :: _ => {| DirentName := name; IsDir := true |}
  | [] => {| DirentName := rest; IsDir := false |}
  end.

Fixpoint addEntry (e : Dirent) (entries : list Dirent) : list Dirent :=
  match entries with
  | [] => [e]
  | e' :: entries' =>
      if String.eqb (DirentName e) (DirentName e') then entries
      else e' :: addEntry e entries'
  end.

Fixpoint entries (dir : string) (files : list JSONFile) (acc : list Dirent)
    : list Dirent :=
  match files with
  | [] => acc
  | f :: files' =>
      match below dir (Path f) with
      | Some rest => entries dir files' (addEntry (entryOf rest) acc)
      | None => entries dir files' acc
      end
  end.

Fixpoint lookup (path : string) (files : list JSONFile) : option string :=
  match files with
  | [] => None
  | f :: files' =>
      match lookup path files' with
      | Some data => Some data
      | None => if String.eqb (Path f) path then Some (Data f) else None
      end
  end.

(** The file system that holds exactly the given artifacts, each written
    at its path; a directory lists its entries in the order in which the
    artifacts first go through them. *)
Definition writeAll (files : list JSONFile) : FileSystem :=
  {| readFile path :=
       match lookup path files with
       | Some data => Found data
       | None =>
           match entries path files [] with
           | [] => NotExist
           | _ => IOError "is a directory"
           end
       end;
     ReadDirents dir :=
       match entries dir files [] with
       | [] => Error "no such file or directory"
       | dirList => Ok dirList
       end;
     Getwd := "/" |}.

End Disk.

(** ** Notions the properties are stated with *)

(** [utf8.DecodeRune] on the numbers it reads: the length of [p] and its
    first four bytes. *)
Definition decodeBody (n p0 b1 b2 b3 : N) : N * nat :=
  (if n <? 1 then (utf8.RuneError, 0%nat)
    else
      let x := utf8.first p0 in
      if 240 <=? x then
        ((if N.testbit x 0 then utf8.RuneError else p0), 1%nat)
      else
        let sz := N.land x 7 in
        let accept := utf8.acceptRanges (N.shiftr x 4) in
        if n <? sz then (utf8.RuneError, 1%nat)
        else
          if (b1 <? fst accept) || (snd accept <? b1) then (utf8.RuneError, 1%nat)
          else if sz <=? 2 then
            (N.lor (N.shiftl (N.land p0 31) 6) (N.land b1 63), 2%nat)
          else
            if (b2 <? utf8.locb) || (utf8.hicb <? b2) then (utf8.RuneError, 1%nat)
            else if sz <=? 3 then
              (N.lor (N.lor (N.shiftl (N.land p0 15) 12)
                            (N.shiftl (N.land b1 63) 6))
                     (N.land b2 63), 3%nat)
            else
              if (b3 <? utf8.locb) || (utf8.hicb <? b3) then (utf8.RuneError, 1%nat)
              else
                (N.lor (N.lor (N.lor (N.shiftl (N.land p0 7) 18)
                                     (N.shiftl (N.land b1 63) 12))
                              (N.shiftl (N.land b2 63) 6))
                       (N.land b3 63), 4%nat))%N.


(** The offset of the last byte ['}'] of [data], counting from [i], and
    [last] when there is none. *)
Fixpoint lastByteFrom (data : string) (i last : Z) : Z :=
  match data with
  | EmptyString => last
  | String c data' =>
      lastByteFrom data' (i + 1) (if Ascii.eqb c "}" then i else last)
  end.


Definition lastIndexByte (data : string) : Z := lastByteFrom data 0 (-1).

(** No byte of [data] is a closing bracket. *)
Fixpoint noBracket (data : string) : bool :=
  match data with
  | EmptyString => true
  | String c data' => negb (Ascii.eqb c "}") && noBracket data'
  end.

(** The driver declines [path]; the nil driver declines every path. *)
Definition declines (vscDriver : option VCSDriver) (path : string) : Prop :=
  match vscDriver with
  | Some driver => HandleFile driver path = Declined
  | None => True
  end.

(** The conflict source never reports a file as contested. *)
Definition neverContested (vscDriver : option VCSDriver) : Prop :=
  match vscDriver with
  | Some driver =>
      forall path ours theirs, HandleFile driver path <> Contested ours theirs
  | None => True
  end.

(** The two buffers hold the same bytes and no conflict was seen. *)
Definition synced (state : decodeState) : Prop :=
  buf state = incomingBuf state /\ hasMergeConflict state = false.

(** [json.Marshal] on an [int]; the examples inline no other value. *)
Definition marshalInt (v : value) : result string :=
  match v with
  | IntValue n => Ok (NilZero.string_of_int (Z.to_int n))
  | _ => Error "json: value not modelled"
  end.

(** ** Directory trees of the examples *)

Module Scenario.

Definition file (path data : string) : JSONFile :=
  {| Path := path; Data := Str.js data |}.

(** An entry file and one subdirectory [b]. *)
Definition splice : FileSystem :=
  Disk.writeAll [file "/d/entry.json" "{'a':1}";
                 file "/d/b/index.json" "{'c':2}"].

(** No entry file and two subdirectories [x] and [y]. *)
Definition emptyEntry : FileSystem :=
  Disk.writeAll [file "/d/x/index.json" "{}";
                 file "/d/y/index.json" "{}"].

(** An entry file in conflict, and the driver that knows its two
    versions. *)
Definition conflict : FileSystem :=
  Disk.writeAll [file "/d/entry.json" "<<<<<<< HEAD"].

Definition conflictDriver : VCSDriver :=
  {| Init := None;
     HandleFile path :=
       if String.eqb path "/d/entry.json"
       then Contested (Str.js "{'a':1}") (Str.js "{'a':2}")
       else Declined |}.

(** No entry file, a subdirectory [x] with an entry file, and a
    subdirectory [y] without one whose subdirectory [z] has one. *)
Definition nested : FileSystem :=
  Disk.writeAll [file "/d/x/index.json" "{}";
                 file "/d/y/z/index.json" "{}"].

End Scenario.

(** ** Values of the examples *)

Module Example.

Definition exported (name : string) : StructField :=
  {| Name := name; PkgPath := EmptyString; Anonymous := false; Tag := [] |}.

(** A field tagged [dfjson:"distributable"]. *)
Definition distributable (name : string) : StructField :=
  {| Name := name; PkgPath := EmptyString; Anonymous := false;
     Tag := [("dfjson", "distributable")] |}.

(** A field tagged [json:"b,omitempty"]. *)
Definition omitempty (name : string) : StructField :=
  {| Name := name; PkgPath := EmptyString; Anonymous := false;
     Tag := [("json", "b,omitempty")] |}.

(** [struct { X int }] *)
Definition leaf (x : Z) : value := StructValue [(exported "X", IntValue x)].

(** A document with an inline field and two distributed maps of pointers
    to leaves. *)
Definition twoMaps : value :=
  PtrValue (StructValue
    [(exported "A", IntValue 1);
     (distributable "M", MapValue [(PlainKey "k", PtrValue (leaf 1))]);
     (distributable "N", MapValue [(PlainKey "j", PtrValue (leaf 2))])]).

(** A document whose only field is distributed. *)
Definition onlyDistributed : value :=
  PtrValue (StructValue
    [(distributable "M", MapValue [(PlainKey "k", PtrValue (leaf 1))])]).

(** A document with a distributed struct and a distributed map. *)
Definition withChild : value :=
  PtrValue (StructValue
    [(exported "A", IntValue 1);
     (distributable "C", leaf 1);
     (distributable "M", MapValue [(PlainKey "k", PtrValue (leaf 2))])]).

End Example.

(** ** Notions of the further properties *)

(** A state whose buffers may differ only after a conflict was seen. *)
Definition agree (state : decodeState) : Prop :=
  hasMergeConflict state = false -> buf state = incomingBuf state.

(** Two outcomes of a directory listing with the same subdirectories, in
    the same order. *)
Definition sameDirs (r1 r2 : result (list Dirent)) : Prop :=
  r1 = r2 \/
  exists l1 l2, r1 = Ok l1 /\ r2 = Ok l2 /\ filter IsDir l1 = filter IsDir l2.

(** A child of a node: the name of a subdirectory and the bytes of its
    [index.json]. *)
Definition child : Type := (string * string)%type.

(** The object member a child gives. *)
Definition memberText (c : child) : string :=
  Str.dquote ++ fst c ++ Str.dquote ++ ":" ++ snd c.

(** The members of the children after the first, each behind its comma. *)
Fixpoint moreMembers (children : list child) : string :=
  match children with
  | [] => EmptyString
  | c :: children' => "," ++ memberText c ++ moreMembers children'
  end.

Definition members (children : list child) : string :=
  match children with
  | [] => EmptyString
  | c :: children' => memberText c ++ moreMembers children'
  end.

Definition dirent (c : child) : Dirent :=
  {| DirentName := fst c; IsDir := true |}.

(** The subdirectory of [topDir] named by the child holds its bytes in
    [index.json], is declined by the driver and has no subdirectory. *)
Definition leafChild (fs : FileSystem) (vscDriver : option VCSDriver)
    (topDir : string) (c : child) : Prop :=
  let path := topDir ++ "/" ++ toSlash (fst c) ++ "/index.json" in
  declines vscDriver path /\
  readFile fs path = Found (snd c) /\
  exists dirList,
    ReadDirents fs (toSlash (filepath.Dir path)) = Ok dirList /\
    filter IsDir dirList = [].

(** [fs] with one more plain file listed in every directory. *)
Definition withPlainFile (fs : FileSystem) (name : string) : FileSystem :=
  {| readFile := readFile fs;
     ReadDirents dir :=
       match ReadDirents fs dir with
       | Ok dirList =>
           Ok (dirList ++ [{| DirentName := name; IsDir := false |}])%list
       | r => r
       end;
     Getwd := Getwd fs |}.

(** An entry file with bytes after its closing brace, a subdirectory whose
    [index.json] is an object and one whose [index.json] is an array. *)
Definition twoChildren : FileSystem :=
  Disk.writeAll [Scenario.file "/d/entry.json" "{'a':1} ";
                 Scenario.file "/d/b/index.json" "{'c':2}";
                 Scenario.file "/d/e/index.json" "[1]"].

(** The field is written inline under the name and with the text of the
    member. *)
Definition inlineAs (json_Marshal : value -> result string)
    (field : StructField * value) (c : child) : Prop :=
  classify (fst field) (snd field) = Inline (fst c) /\
  isUnexported (fst field) = false /\
  json_Marshal (snd field) = Ok (snd c).

(** The artifact of a map entry: the key and the text of its object. *)
Definition entryFile (path : string) (c : child) : JSONFile :=
  {| Path := toSlash (filepath.Dir path) ++ "/" ++ fst c ++ "/index.json";
     Data := snd c |}.

(** The map entry has a plain key and is a pointer to a struct whose fields
    are all inline; the child holds the key and the text of the struct. *)
Definition inlineEntry (json_Marshal : value -> result string)
    (entry : MapKey * value) (c : child) : Prop :=
  fst entry = PlainKey (fst c) /\
  exists fields m ms,
    snd entry = PtrValue (StructValue fields) /\
    Forall2 (inlineAs json_Marshal) fields (m :: ms) /\
    snd c = "{" ++ members (m :: ms) ++ "}".

(** The bytes of the artifact start with an open brace. *)
Definition opensObject (f : JSONFile) : Prop :=
  exists rest, Data f = String "{" rest.

(** [state'] keeps the artifacts of [state], in order, and adds artifacts
    that start with an open brace. *)
Definition appended (state state' : encodeState) : Prop :=
  Directory state' = Directory state /\
  exists new, Paths state' = (Paths state ++ new)%list /\ Forall opensObject new.

(** As [appended], the last artifact added being the one at [path]. *)
Definition ownLast (path : string) (state state' : encodeState) : Prop :=
  Directory state' = Directory state /\
  exists older data,
    Paths state' =
    (Paths state ++ older ++ [{| Path := path; Data := String "{" data |}])%list
    /\ Forall opensObject older.

(** What is shown of a value: [encode] on it only appends, and [encode] on a
    pointer to it appends its own artifact last. *)
Definition keeps (json_Marshal : value -> result string) (v : value) : Prop :=
  (forall path state state',
      encode json_Marshal path v state = Ok state' -> appended state state')
  /\ (forall path state state',
         encodeElem json_Marshal path v state = Ok state' ->
         ownLast path state state').

(** ** dfgit.GitDriver *)

Module dfgit.

(** What running a command gives: it could not be started, or it ran and
    wrote to its standard output and standard error. *)
Inductive process : Type :=
| StartFailed (err : string)
| Ran (stdOutput errOutput : string).

(** os/exec: [exec.LookPath] and the outcome of a command line. *)
Record Exec : Type := mkExec {
  LookPath : string -> result string;
  Command : string -> list string -> process
}.

Record GitDriver : Type := mkGitDriver {
  gitPath : string;
  gitTopPath : string;
  (** the keys of the map, in the order they were set to [true] *)
  conflictedFileMap : list string
}.

Definition newline : ascii := "010"%char.

(** [strings.Split(s, "\n")] *)
Fixpoint Split (s : string) : list string :=
  match s with
  | EmptyString => [EmptyString]
  | String c s' =>
      match Split s' with
      | [] => [EmptyString]
      | e :: es =>
          if Ascii.eqb c newline then EmptyString :: e :: es
          else String c e :: es
      end
  end.

(** [execCommand(path, arguments...)] *)
Definition execCommand (os : Exec) (path : string) (arguments : list string)
    : result string :=
  match Command os path arguments with
  | StartFailed err => Error err
  | Ran stdOutput errOutput =>
      if (0 <? String.length errOutput)%nat then Error errOutput
      else Ok stdOutput
  end.

(** The loop of [Init] over [changedFileList]. *)
Fixpoint changedFiles (gitTopPath : string) (changedFileList : list string)
    (conflictedFileMap : list string) : result (list string) :=
  match changedFileList with
  | [] => Ok conflictedFileMap
  | changedFile :: changedFileList' =>
      match changedFile with
      | EmptyString => Panic "runtime error: index out of range"
      | String c _ =>
          if negb (Ascii.eqb c "M") then
            changedFiles gitTopPath changedFileList' conflictedFileMap
          else if (String.length changedFile <? 2)%nat then
            Panic "runtime error: slice bounds out of range"
          else
            (* skip first letter and whitespace, just get relative path *)
            let changedFile := Str.skip 2 changedFile in
            let absPath := gitTopPath ++ "/" ++ changedFile in
            changedFiles gitTopPath changedFileList'
              (conflictedFileMap ++ [absPath])%list
      end
  end.

(** [vcs.Init()]: the driver it leaves when it returns nil.  Every field is
    set anew, so the driver it starts from does not matter. *)
Definition Init (os : Exec) : result GitDriver :=
  match LookPath os "git" with
  | Ok path =>
      (* Get the top level directory *)
      topPath <- execCommand os path ["rev-parse"; "--show-toplevel"] ;;
      if (String.length topPath =? 0)%nat then
        Panic "runtime error: slice bounds out of range"
      else
        (* trim newline from execCommand *)
        let topPath := Str.take (String.length topPath - 1) topPath in
        (* Get the files changed *)
        match Command os path ["--no-pager"; "diff"; "--name-status"] with
        | StartFailed err => Error err
        | Ran stdOutput errOutput =>
            if (0 <? String.length errOutput)%nat then Error errOutput
            else
              let changedFileList := Split stdOutput in
              (* the last split entry is an empty line, so we cut it off *)
              let changedFileList :=
                firstn (List.length changedFileList - 1) changedFileList in
              conflictedFileMap <- changedFiles topPath changedFileList [] ;;
              Ok {| gitPath := path; gitTopPath := topPath;
                    conflictedFileMap := conflictedFileMap |}
        end
  | _ => Error ("unable to locate " ++ Str.dquote ++ "git" ++ Str.dquote
                ++ ". Is Git installed?")
  end.

(** [vcs.HandleFile(path, oursBuffer, theirsBuffer)]; an error it returns
    and a panic both stop the decoder the same way. *)
Definition HandleFile (os : Exec) (vcs : GitDriver) (path : string)
    : handled :=
  if existsb (String.eqb path) (conflictedFileMap vcs) then
    if (String.length path <? String.length (gitTopPath vcs) + 1)%nat then
      DriverError "runtime error: slice bounds out of range"
    else
      let path := Str.skip (String.length (gitTopPath vcs) + 1) path in
      match execCommand os (gitPath vcs)
              ["--no-pager"; "show"; "HEAD:" ++ path] with
      | Ok oursData =>
          match execCommand os (gitPath vcs)
                  ["--no-pager"; "show"; "MERGE_HEAD:" ++ path] with
          | Ok theirsData => Contested oursData theirsData
          | Error msg | Panic msg => DriverError msg
          | OutOfFuel => DriverError EmptyString
          end
      | Error msg | Panic msg => DriverError msg
      | OutOfFuel => DriverError EmptyString
      end
  else
    (* Fallback to default behaviour *)
    Declined.

(** The driver as the decoder sees it once [Init] has returned nil. *)
Definition initialized (os : Exec) (vcs : GitDriver) : VCSDriver :=
  mkVCSDriver None (HandleFile os vcs).

(** A line of [git diff --name-status]: the status letter, the separator
    and the path. *)
Record statusLine : Type := mkStatusLine {
  status : ascii;
  separator : ascii;
  file : string
}.

Definition lineText (l : statusLine) : string :=
  String (status l) (String (separator l) (file l)).

Fixpoint noNewline (s : string) : bool :=
  match s with
  | EmptyString => true
  | String c s' => negb (Ascii.eqb c newline) && noNewline s'
  end.

(** The output of the command: every line followed by a newline. *)
Fixpoint statusOutput (ls : list statusLine) : string :=
  match ls with
  | [] => EmptyString
  | l :: ls' => lineText l ++ String newline (statusOutput ls')
  end.

Definition isModified (l : statusLine) : bool := Ascii.eqb (status l) "M".

End dfgit.

(** The registered path of a line. *)
Definition absPath (top : string) (l : dfgit.statusLine) : string :=
  top ++ "/" ++ dfgit.file l.

Definition wellFormedLine (l : dfgit.statusLine) : Prop :=
  dfgit.noNewline (dfgit.lineText l) = true.

(** A machine on which git is found, knows the top directory [top] and
    lists the lines [ls] as the changes. *)
Definition gitReports (os : dfgit.Exec) (git top : string)
    (ls : list dfgit.statusLine) : Prop :=
  dfgit.LookPath os "git" = Ok git /\
  dfgit.Command os git ["rev-parse"; "--show-toplevel"]
  = dfgit.Ran (top ++ String dfgit.newline EmptyString) EmptyString /\
  dfgit.Command os git ["--no-pager"; "diff"; "--name-status"]
  = dfgit.Ran (dfgit.statusOutput ls) EmptyString /\
  Forall wellFormedLine ls.

(** A machine with git in a repository at [/repo], where [d/entry.json] is
    modified and [d/new.json] added. *)
Definition gitLines : list dfgit.statusLine :=
  [{| dfgit.status := "M"; dfgit.separator := "009";
      dfgit.file := "d/entry.json" |};
   {| dfgit.status := "A"; dfgit.separator := "009";
      dfgit.file := "d/new.json" |}].

Definition gitBox : dfgit.Exec :=
  {| dfgit.LookPath name :=
       if String.eqb name "git" then Ok "/usr/bin/git"
       else Error "executable file not found in $PATH";
     dfgit.Command path arguments :=
       if list_eq_dec string_dec arguments ["rev-parse"; "--show-toplevel"]
       then dfgit.Ran ("/repo" ++ String dfgit.newline EmptyString)
              EmptyString
       else if list_eq_dec string_dec arguments
                 ["--no-pager"; "diff"; "--name-status"]
       then dfgit.Ran (dfgit.statusOutput gitLines) EmptyString
       else if list_eq_dec string_dec arguments
                 ["--no-pager"; "show"; "HEAD:d/entry.json"]
       then dfgit.Ran (Str.js "{'a':1}") EmptyString
       else if list_eq_dec string_dec arguments
                 ["--no-pager"; "show"; "MERGE_HEAD:d/entry.json"]
       then dfgit.Ran (Str.js "{'a':2}") EmptyString
       else dfgit.Ran EmptyString "fatal: bad revision" |}.

Definition gitRepo : FileSystem :=
  Disk.writeAll [Scenario.file "/repo/d/entry.json" "<<<<<<< HEAD"].

(** The file system holds the artifact at its path, in a directory without
    subdirectories, and the driver declines it. *)
Definition holds (fs : FileSystem) (vscDriver : option VCSDriver)
    (f : JSONFile) : Prop :=
  declines vscDriver (Path f) /\
  readFile fs (Path f) = Found (Data f) /\
  exists dirList,
    ReadDirents fs (toSlash (filepath.Dir (Path f))) = Ok dirList /\
    filter IsDir dirList = [].

(** The field reaches the test of the [string] option: it is exported, its
    [json] tag is not [-] and has no [omitempty], and its options name
    [string]. *)
Definition stringOption (fieldType : StructField) : Prop :=
  isUnexported fieldType = false /\
  jsonTag fieldType <> "-" /\
  Str.Contains (tagOptions (jsonTag fieldType)) "omitempty" = false /\
  Str.Contains (tagOptions (jsonTag fieldType)) "string" = true.

(** * Properties *)

(** ** Scanning for the last closing bracket *)

Lemma DecodeRune_body p :
  utf8.DecodeRune p =
  decodeBody (N.of_nat (String.length p)) (utf8.byteAt p 0) (utf8.byteAt p 1)
    (utf8.byteAt p 2) (utf8.byteAt p 3).
Proof. reflexivity. Qed.


Local Open Scope N_scope.

Lemma lor_ne_bracket A B : N.shiftr A 7 <> 0 -> (N.lor A B =? 125) = false.
Proof.
  intros HA. apply N.eqb_neq. intros H.
  apply (f_equal (fun x => N.shiftr x 7)) in H.
  rewrite N.shiftr_lor in H. change (N.shiftr 125 7) with 0 in H.
  apply N.lor_eq_0_iff in H. tauto.
Qed.

Lemma shiftr_lor_l A B n : N.shiftr A n <> 0 -> N.shiftr (N.lor A B) n <> 0.
Proof.
  intros HA H. rewrite N.shiftr_lor in H. apply N.lor_eq_0_iff in H. tauto.
Qed.

Lemma shiftr_lor_r A B n : N.shiftr B n <> 0 -> N.shiftr (N.lor A B) n <> 0.
Proof.
  intros HA H. rewrite N.shiftr_lor in H. apply N.lor_eq_0_iff in H. tauto.
Qed.

Lemma shiftl_high k m : k <> 0 -> 7 <= m -> N.shiftr (N.shiftl k m) 7 <> 0.
Proof.
  intros Hk Hm H. rewrite N.shiftr_shiftl_l in H by assumption.
  apply N.shiftl_eq_0_iff in H. contradiction.
Qed.

Lemma shiftl6_high k : 2 <= k -> N.shiftr (N.shiftl k 6) 7 <> 0.
Proof.
  intros Hk H. rewrite N.shiftr_shiftl_r in H by lia.
  change (7 - 6) with 1 in H. rewrite N.shiftr_div_pow2 in H.
  change (2 ^ 1) with 2 in H.
  apply N.div_small_iff in H; lia.
Qed.


Lemma land_ones_bounds a j lo :
  lo <= a < lo + 2 ^ j -> (2 ^ j | lo) -> N.land a (N.ones j) = a - lo.
Proof.
  intros Ha [q Hq]. rewrite N.land_ones.
  assert (H2 : 2 ^ j <> 0) by (apply N.pow_nonzero; discriminate).
  symmetry. apply (N.mod_unique _ _ q); [lia|]. lia.
Qed.

Lemma land31 a : 192 <= a < 224 -> N.land a 31 = a - 192.
Proof.
  intros H. apply (land_ones_bounds a 5 192); [exact H | exists 6; reflexivity].
Qed.

Lemma land63 a : 128 <= a < 192 -> N.land a 63 = a - 128.
Proof.
  intros H. apply (land_ones_bounds a 6 128); [exact H | exists 2; reflexivity].
Qed.

Lemma land15 a : 224 <= a < 240 -> N.land a 15 = a - 224.
Proof.
  intros H. apply (land_ones_bounds a 4 224); [exact H | exists 14; reflexivity].
Qed.

Lemma land7 a : 240 <= a < 248 -> N.land a 7 = a - 240.
Proof.
  intros H. apply (land_ones_bounds a 3 240); [exact H | exists 30; reflexivity].
Qed.

Ltac high_bits :=
  first
    [ apply shiftl6_high;
      first [ rewrite land31 by lia | rewrite land63 by lia ]; lia
    | apply shiftl_high;
      [ first [ rewrite land15 by lia | rewrite land7 by lia
              | rewrite land63 by lia ]; lia
      | lia ]
    | apply shiftr_lor_l; high_bits
    | apply shiftr_lor_r; high_bits ].

Lemma decodeBody_cases n p0 b1 b2 b3 :
  1 <= n ->
  let '(r, sz) := decodeBody n p0 b1 b2 b3 in
  (sz = 1%nat /\ (r =? 125) = (p0 =? 125)) \/
  (N.of_nat sz <= n /\ (r =? 125) = false /\ 128 <= p0 /\ 128 <= b1 /\
   ((sz = 2%nat) \/ (128 <= b2 /\ (sz = 3%nat \/ (128 <= b3 /\ sz = 4%nat))))).
Proof.
  intros Hn. unfold decodeBody.
  destruct (N.ltb_spec n 1) as [?|_]; [lia|].
  unfold utf8.first.
  assert (Herr : (utf8.RuneError =? 125) = false) by reflexivity.
  remember (p0 =? 125) as isBracket eqn:HisB.
  repeat match goal with
  | |- context [N.ltb p0 ?k] => destruct (N.ltb_spec p0 k)
  | |- context [N.eqb p0 ?k] => destruct (N.eqb_spec p0 k)
  end; cbn.
  all: repeat match goal with
  | |- context [N.ltb ?a ?k] => destruct (N.ltb_spec a k); cbn
  end.
  all: try (left; split; [reflexivity|]; subst isBracket; first [reflexivity | symmetry; apply N.eqb_neq; lia]).
  all: right; split; [lia|]; split; [apply lor_ne_bracket; high_bits|].
  all: unfold utf8.locb, utf8.hicb in *.
  all: repeat split; try lia.
  all: first [left; reflexivity | right; split; [lia|]; first [left; reflexivity | right; split; [lia | reflexivity]]].
Qed.

Local Close Scope N_scope.

Lemma N_of_ascii_eqb c d : N.eqb (N_of_ascii c) (N_of_ascii d) = Ascii.eqb c d.
Proof.
  destruct (Ascii.eqb_spec c d) as [->|Hne].
  - apply N.eqb_refl.
  - apply N.eqb_neq. intros H. apply Hne.
    rewrite <- (ascii_N_embedding c), <- (ascii_N_embedding d), H. reflexivity.
Qed.

Lemma high_not_bracket c : (128 <= N_of_ascii c)%N -> Ascii.eqb c "}" = false.
Proof.
  intros H. rewrite <- N_of_ascii_eqb. apply N.eqb_neq.
  change (N_of_ascii "}") with 125%N. lia.
Qed.

Lemma byteAt_high p k : (128 <= utf8.byteAt p k)%N ->
  exists c, get k p = Some c /\ Ascii.eqb c "}" = false.
Proof.
  unfold utf8.byteAt. destruct (get k p) as [c|]; [|lia].
  intros H. exists c. split; [reflexivity | apply high_not_bracket, H].
Qed.

Lemma DecodeRune_step c s' i last :
  let '(r, n) := utf8.DecodeRune (String c s') in
  (1 <= n)%nat /\
  lastByteFrom (String c s') i last =
  lastByteFrom (Str.skip n (String c s')) (i + Z.of_nat n)
    (if N.eqb r closeBracket then i else last).
Proof.
  rewrite DecodeRune_body.
  pose proof (decodeBody_cases (N.of_nat (String.length (String c s')))
                (utf8.byteAt (String c s') 0) (utf8.byteAt (String c s') 1)
                (utf8.byteAt (String c s') 2) (utf8.byteAt (String c s') 3)) as H.
  destruct (decodeBody _ _ _ _ _) as [r n].
  unfold closeBracket.
  destruct H as [[-> Hr] | (Hlen & Hr & H0 & H1 & Hrest)].
  - cbn [String.length]. lia.
  - split; [lia|]. rewrite Hr. cbn [utf8.byteAt get]. 
    change 125%N with (N_of_ascii "}"). rewrite N_of_ascii_eqb.
    reflexivity.
  - rewrite Hr.
    apply byteAt_high in H0, H1.
    destruct H0 as (c0 & Hc0 & Hb0). cbn in Hc0. injection Hc0 as <-.
    destruct H1 as (c1 & Hc1 & Hb1). destruct s' as [|c1' s2]; [discriminate|].
    cbn in Hc1. injection Hc1 as ->.
    destruct Hrest as [-> | (H2 & Hrest)].
    { split; [lia|]. cbn. rewrite Hb0, Hb1. f_equal. lia. }
    apply byteAt_high in H2. destruct H2 as (c2 & Hc2 & Hb2).
    destruct s2 as [|c2' s3]; [discriminate|]. cbn in Hc2. injection Hc2 as ->.
    destruct Hrest as [-> | (H3 & ->)].
    { split; [lia|]. cbn. rewrite Hb0, Hb1, Hb2. f_equal. lia. }
    apply byteAt_high in H3. destruct H3 as (c3 & Hc3 & Hb3).
    destruct s3 as [|c3' s4]; [discriminate|]. cbn in Hc3. injection Hc3 as ->.
    split; [lia|]. cbn. rewrite Hb0, Hb1, Hb2, Hb3. f_equal. lia.
Qed.

Lemma skip_length n s : (String.length (Str.skip n s) <= String.length s - 0)%nat /\
  ((1 <= n)%nat -> s <> EmptyString -> (String.length (Str.skip n s) < String.length s)%nat).
Proof.
  revert s. induction n as [|n IH]; intros s.
  - cbn. split; [lia|]. intros; lia.
  - destruct s as [|c s]; cbn.
    + split; [lia|]. intros _ H. contradiction.
    + destruct (IH s) as [IH1 _]. split; [lia|]. intros; lia.
Qed.

Lemma lastBracketLoop_bytes fuel rest i last :
  (String.length rest <= fuel)%nat ->
  lastBracketLoop fuel rest i last = lastByteFrom rest i last.
Proof.
  revert rest i last. induction fuel as [|fuel IH]; intros rest i last Hlen.
  - destruct rest; [reflexivity | cbn in Hlen; lia].
  - destruct rest as [|c s']; [reflexivity|].
    cbn [lastBracketLoop].
    pose proof (DecodeRune_step c s' i last) as Hstep.
    destruct (utf8.DecodeRune (String c s')) as [r n].
    destruct Hstep as [Hn ->].
    apply IH.
    destruct (skip_length n (String c s')) as [_ Hlt].
    specialize (Hlt Hn ltac:(discriminate)). lia.
Qed.

(** ** The offset of the last closing bracket *)

Lemma lastBracketIndexOf_bytes data :
  lastBracketIndexOf data = lastIndexByte data.
Proof.
  unfold lastBracketIndexOf, lastIndexByte.
  apply lastBracketLoop_bytes. lia.
Qed.

Lemma lastByteFrom_spec data i last :
  (noBracket data = true /\ lastByteFrom data i last = last) \/
  (exists pre post,
      data = pre ++ String "}" post /\ noBracket post = true /\
      lastByteFrom data i last = i + Z.of_nat (String.length pre)).
Proof.
  revert i last. induction data as [|c data IH]; intros i last.
  - left. split; reflexivity.
  - cbn [lastByteFrom noBracket].
    destruct (IH (i + 1) (if Ascii.eqb c "}" then i else last))
      as [[Hno Heq] | (pre & post & Hdata & Hno & Heq)].
    + destruct (Ascii.eqb_spec c "}") as [->|Hc].
      * right. exists EmptyString, data. cbn. repeat split; [assumption|].
        rewrite Heq. lia.
      * left. split; [rewrite Hno; reflexivity | exact Heq].
    + right. exists (String c pre), post. subst data. cbn [append String.length].
      repeat split; [assumption|]. rewrite Heq. lia.
Qed.

Lemma append_length s t :
  String.length (s ++ t) = (String.length s + String.length t)%nat.
Proof. induction s as [|c s IH]; cbn; [reflexivity | rewrite IH; reflexivity]. Qed.

Lemma take_append pre post :
  Str.take (String.length pre) (pre ++ post) = pre.
Proof.
  unfold Str.take. induction pre as [|c pre IH]; cbn.
  - destruct post; reflexivity.
  - rewrite IH. reflexivity.
Qed.

(** The index [truncateLastBracket] computes is -1 when the primary buffer
    holds no closing bracket, and otherwise the offset of its last one. *)
Lemma lastBracketIndexOf_spec data :
  (noBracket data = true /\ lastBracketIndexOf data = -1) \/
  (exists pre post,
      data = pre ++ String "}" post /\ noBracket post = true /\
      lastBracketIndexOf data = Z.of_nat (String.length pre)).
Proof.
  rewrite lastBracketIndexOf_bytes. unfold lastIndexByte.
  destruct (lastByteFrom_spec data 0 (-1)) as [H | (pre & post & H1 & H2 & H3)].
  - left. exact H.
  - right. exists pre, post. repeat split; assumption.
Qed.

Lemma Truncate_in_range b n :
  0 <= n <= Z.of_nat (String.length b) ->
  Buffer.Truncate b n = Ok (Str.take (Z.to_nat n) b).
Proof.
  intros H. unfold Buffer.Truncate.
  destruct (Z.eqb_spec n 0) as [->|Hn].
  - unfold Str.take. destruct b; reflexivity.
  - destruct (Z.ltb_spec n 0); [lia|].
    destruct (Z.ltb_spec (Z.of_nat (String.length b)) n); [lia|]. reflexivity.
Qed.

Lemma Truncate_out_of_range b n :
  Z.of_nat (String.length b) < n ->
  Buffer.Truncate b n = Panic "bytes.Buffer: truncation out of range".
Proof.
  intros H. unfold Buffer.Truncate.
  destruct (Z.eqb_spec n 0) as [->|Hn]; [lia|].
  destruct (Z.ltb_spec n 0); [lia|].
  destruct (Z.ltb_spec (Z.of_nat (String.length b)) n); [|lia]. reflexivity.
Qed.

(** C10 (amended).  [truncateLastBracket] finds the last closing bracket by
    scanning the primary buffer only: when the primary buffer is
    [pre ++ "}" ++ post] with no closing bracket in [post], and the incoming
    buffer holds at least [length pre] bytes, both buffers are cut at the
    offset [length pre], whatever the incoming buffer holds and wherever its
    own last closing bracket lies. *)
Theorem truncate_primary_driven (state : decodeState) (pre post : string) :
  buf state = pre ++ String "}" post ->
  noBracket post = true ->
  (String.length pre <= String.length (incomingBuf state))%nat ->
  truncateLastBracket state =
  Ok (true, {| buf := pre;
               incomingBuf := Str.take (String.length pre) (incomingBuf state);
               hasMergeConflict := hasMergeConflict state |}).
Proof.
  intros Hbuf Hpost Hlen. unfold truncateLastBracket.
  destruct (lastBracketIndexOf_spec (buf state))
    as [[Hno _] | (pre' & post' & Hbuf' & Hpost' & Hidx)].
  - exfalso. rewrite Hbuf in Hno. clear - Hno.
    induction pre as [|c pre IH]; cbn in Hno.
    + discriminate.
    + apply andb_true_iff in Hno. tauto.
  - assert (pre' = pre) as ->.
    { rewrite Hbuf in Hbuf'. clear - Hbuf' Hpost Hpost'.
      revert pre' Hbuf'. induction pre as [|c pre IH]; intros [|c' pre'] H; cbn in H.
      - reflexivity.
      - injection H as <- H. subst post. exfalso. clear - Hpost.
        induction pre' as [|c pre IH]; cbn in Hpost; [discriminate|].
        apply andb_true_iff in Hpost. tauto.
      - injection H as -> H. subst post'. exfalso. clear - Hpost'.
        induction pre as [|c pre IH]; cbn in Hpost'; [discriminate|].
        apply andb_true_iff in Hpost'. tauto.
      - injection H as -> H. f_equal. apply IH, H. }
    rewrite Hidx.
    destruct (Z.eqb_spec (Z.of_nat (String.length pre)) (-1)); [lia|]. cbn [negb].
    rewrite !Truncate_in_range.
    + cbn [bind]. rewrite Nat2Z.id. rewrite Hbuf, take_append. reflexivity.
    + lia.
    + rewrite Hbuf, append_length. cbn [String.length]. lia.
Qed.

(** The cut of the incoming buffer does not happen for every state: after a
    contested file whose incoming version is shorter than the offset found
    in the primary buffer, [Truncate] panics. *)
Lemma truncate_short_incoming :
  ~ (forall (state : decodeState) (pre post : string),
        buf state = pre ++ String "}" post ->
        noBracket post = true ->
        truncateLastBracket state =
        Ok (true, {| buf := pre;
                     incomingBuf :=
                       Str.take (String.length pre) (incomingBuf state);
                     hasMergeConflict := hasMergeConflict state |})).
Proof.
  intros H.
  specialize (H {| buf := Str.js "{'a':111}"; incomingBuf := Str.js "{}";
                   hasMergeConflict := true |}
                (Str.js "{'a':111") EmptyString eq_refl eq_refl).
  vm_compute in H. discriminate H.
Qed.

(** ** No-conflict identity *)

Lemma WriteAll_synced state b : synced state -> synced (WriteAll state b).
Proof.
  intros [Hbuf Hflag]. split; cbn; [rewrite Hbuf; reflexivity | exact Hflag].
Qed.

Lemma truncateLastBracket_synced state truncated state' :
  synced state ->
  truncateLastBracket state = Ok (truncated, state') ->
  synced state'.
Proof.
  intros [Hbuf Hflag]. unfold truncateLastBracket. rewrite <- Hbuf.
  destruct (negb _).
  - destruct (Buffer.Truncate (buf state) _) as [b| | |]; cbn; try discriminate.
    intros H. injection H as _ <-. split; [reflexivity | exact Hflag].
  - intros H. injection H as _ <-. split; assumption.
Qed.

Section NoConflict.

Variable fs : FileSystem.
Variable vscDriver : option VCSDriver.
Hypothesis never : neverContested vscDriver.

Lemma readEntryFile_synced path state hasBracket state' :
  synced state ->
  readEntryFile fs vscDriver path state = Ok (hasBracket, state') ->
  synced state'.
Proof.
  intros Hs. unfold readEntryFile.
  assert (Hd : (match vscDriver with
                | Some driver =>
                    match HandleFile driver path with
                    | DriverError msg => Panic msg
                    | Contested ours theirs =>
                        Ok (true, {| buf := buf state ++ ours;
                                     incomingBuf := incomingBuf state ++ theirs;
                                     hasMergeConflict := true |})
                    | Declined => Ok (false, state)
                    end
                | None => Ok (false, state)
                end) = Ok (false, state)
               \/ exists msg, (match vscDriver with
                | Some driver =>
                    match HandleFile driver path with
                    | DriverError msg => Panic msg
                    | Contested ours theirs =>
                        Ok (true, {| buf := buf state ++ ours;
                                     incomingBuf := incomingBuf state ++ theirs;
                                     hasMergeConflict := true |})
                    | Declined => Ok (false, state)
                    end
                | None => Ok (false, state)
                end) = Panic msg).
  { destruct vscDriver as [driver|]; [|left; reflexivity].
    cbn in never. specialize (never path).
    destruct (HandleFile driver path) as [|ours theirs|msg].
    - left; reflexivity.
    - exfalso. apply (never ours theirs). reflexivity.
    - right. exists msg. reflexivity. }
  destruct Hd as [-> | [msg ->]]; cbn; [|discriminate].
  destruct (readFile fs path) as [b| |msg]; intros H; try discriminate;
    injection H as _ <-.
  - apply WriteAll_synced, Hs.
  - exact Hs.
Qed.

Lemma decodeDirList_synced decode topDir dirList :
  (forall path state state',
      synced state -> decode path state = Ok state' -> synced state') ->
  forall hasWrittenFirstField hasClosingBracket state hasClosingBracket' state',
    synced state ->
    decodeDirList decode topDir dirList
      hasWrittenFirstField hasClosingBracket state
    = Ok (hasClosingBracket', state') ->
    synced state'.
Proof.
  intros Hrec. induction dirList as [|fileOrDir dirList IH];
    intros hw hc state hc' state' Hs; cbn [decodeDirList].
  - intros H. injection H as _ <-. exact Hs.
  - destruct (IsDir fileOrDir); cbn [negb]; [|apply IH, Hs].
    destruct hw.
    + cbn [bind].
      destruct (decode _ _) as [s1| | |] eqn:Hdec; cbn [bind]; try discriminate.
      apply IH. eapply Hrec; [|exact Hdec].
      do 2 apply WriteAll_synced. exact Hs.
    + destruct (truncateLastBracket state) as [[truncated s0]| | |] eqn:Htr;
        cbn [bind]; try discriminate.
      pose proof (truncateLastBracket_synced _ _ _ Hs Htr) as Hs0.
      destruct truncated; cbn [bind].
      * destruct (decode _ _) as [s1| | |] eqn:Hdec; cbn [bind];
          try discriminate.
        apply IH. eapply Hrec; [|exact Hdec].
        do 2 apply WriteAll_synced. exact Hs0.
      * destruct (decode _ _) as [s1| | |] eqn:Hdec; cbn [bind];
          try discriminate.
        apply IH. eapply Hrec; [|exact Hdec].
        apply WriteAll_synced. exact Hs0.
Qed.

Lemma decode_synced fuel : forall path state state',
  synced state ->
  decode fs vscDriver fuel path state = Ok state' ->
  synced state'.
Proof.
  induction fuel as [|fuel IH]; intros path state state' Hs; cbn [decode].
  - discriminate.
  - destruct (readEntryFile fs vscDriver path state)
      as [[hasBracket s1]| | |] eqn:Hread; cbn [bind]; try discriminate.
    pose proof (readEntryFile_synced _ _ _ _ Hs Hread) as Hs1.
    destruct (ReadDirents fs _) as [dirList| | |]; cbn [bind];
      try discriminate.
    destruct (decodeDirList _ _ _ _ _ _) as [[hc s2]| | |] eqn:Hloop;
      cbn [bind]; try discriminate.
    assert (Hs2 : synced s2).
    { eapply decodeDirList_synced; [exact IH| |exact Hloop].
      destruct hasBracket; cbn [negb]; [exact Hs1|].
      apply WriteAll_synced, Hs1. }
    destruct hc; cbn [negb]; intros H; injection H as <-.
    + exact Hs2.
    + apply WriteAll_synced, Hs2.
Qed.

End NoConflict.

(** C6.  No-conflict identity: when the conflict source never reports a
    file as contested (the nil driver included), a decode call that starts
    from a fresh state ends with the primary and the incoming buffer equal
    byte for byte, and with the conflict flag false. *)
Theorem no_conflict_identity (fs : FileSystem) (vscDriver : option VCSDriver)
    (fuel : nat) (path : string) (state' : decodeState) :
  neverContested vscDriver ->
  decode fs vscDriver fuel path newDecodeState = Ok state' ->
  buf state' = incomingBuf state' /\ hasMergeConflict state' = false.
Proof.
  intros Hnever Hdec.
  apply (decode_synced fs vscDriver Hnever fuel path newDecodeState state');
    [split; reflexivity | exact Hdec].
Qed.

(** ** Walking a directory *)

Lemma decodeDirList_dirs decode topDir dirList :
  forall hasWrittenFirstField hasClosingBracket state,
    decodeDirList decode topDir dirList
      hasWrittenFirstField hasClosingBracket state
    = decodeDirList decode topDir (filter IsDir dirList)
        hasWrittenFirstField hasClosingBracket state.
Proof.
  induction dirList as [|fileOrDir dirList IH]; intros hw hc state.
  - reflexivity.
  - cbn [filter]. destruct (IsDir fileOrDir) eqn:Hdir.
    + cbn [decodeDirList]. rewrite Hdir. cbn [negb].
      destruct (if hw then _ else _) as [[hc' s']| | |]; cbn [bind];
        try reflexivity.
      destruct (decode _ _); cbn [bind]; try reflexivity. apply IH.
    + cbn [decodeDirList]. rewrite Hdir. cbn [negb]. apply IH.
Qed.

Lemma readEntryFile_declined fs vscDriver path state :
  declines vscDriver path ->
  readEntryFile fs vscDriver path state =
  match readFile fs path with
  | IOError msg => Panic msg
  | NotExist => Ok (false, state)
  | Found b => Ok (true, WriteAll state b)
  end.
Proof.
  intros Hd. unfold readEntryFile.
  destruct vscDriver as [driver|]; cbn in Hd; [rewrite Hd|]; reflexivity.
Qed.

(** A node with an entry file and no subdirectory contributes the bytes of
    the file. *)
Lemma decode_file_leaf fs vscDriver fuel path state b dirList :
  declines vscDriver path ->
  readFile fs path = Found b ->
  ReadDirents fs (toSlash (filepath.Dir path)) = Ok dirList ->
  filter IsDir dirList = [] ->
  decode fs vscDriver (S fuel) path state = Ok (WriteAll state b).
Proof.
  intros Hd Hfile Hdir Hno. cbn [decode].
  rewrite (readEntryFile_declined _ _ _ _ Hd), Hfile. cbn [bind negb].
  rewrite Hdir. cbn [bind]. rewrite decodeDirList_dirs, Hno. reflexivity.
Qed.

(** A node the driver reports as contested, with no subdirectory,
    contributes one version to each buffer. *)
Lemma decode_contested_leaf fs driver fuel path state ours theirs dirList :
  HandleFile driver path = Contested ours theirs ->
  ReadDirents fs (toSlash (filepath.Dir path)) = Ok dirList ->
  filter IsDir dirList = [] ->
  decode fs (Some driver) (S fuel) path state =
  Ok {| buf := buf state ++ ours;
        incomingBuf := incomingBuf state ++ theirs;
        hasMergeConflict := true |}.
Proof.
  intros Hh Hdir Hno. cbn [decode]. unfold readEntryFile. rewrite Hh.
  cbn [bind negb]. rewrite Hdir. cbn [bind].
  rewrite decodeDirList_dirs, Hno. reflexivity.
Qed.

(** C3.  Splice correctness: with an entry file holding [{"a":1}] and, as
    the only subdirectory of its directory, [b] whose [index.json] holds
    [{"c":2}] and which has no subdirectory of its own, a decode call from a
    fresh state produces the bytes [{"a":1,"b":{"c":2}}], a JSON text that
    parses to an object with exactly the two keys [a] and [b]. *)
Theorem splice_correctness (fs : FileSystem) (vscDriver : option VCSDriver)
    (fuel : nat) (path : string) (dirList dirList' : list Dirent) :
  let topDir := toSlash (filepath.Dir path) in
  let child := topDir ++ "/b/index.json" in
  declines vscDriver path ->
  declines vscDriver child ->
  readFile fs path = Found (Str.js "{'a':1}") ->
  ReadDirents fs topDir = Ok dirList ->
  filter IsDir dirList = [{| DirentName := "b"; IsDir := true |}] ->
  readFile fs child = Found (Str.js "{'c':2}") ->
  ReadDirents fs (toSlash (filepath.Dir child)) = Ok dirList' ->
  filter IsDir dirList' = [] ->
  decode fs vscDriver (S (S fuel)) path newDecodeState =
  Ok {| buf := Str.js "{'a':1,'b':{'c':2}}";
        incomingBuf := Str.js "{'a':1,'b':{'c':2}}";
        hasMergeConflict := false |}
  /\ json.parse (Str.js "{'a':1,'b':{'c':2}}") =
     Some (json.JObject
             [("a", json.JNumber "1");
              ("b", json.JObject [("c", json.JNumber "2")])]).
Proof.
  intros topDir child Hd Hd' Hfile Hdir Hdirs Hfile' Hdir' Hdirs'.
  split; [|reflexivity].
  remember (S fuel) as fuel1 eqn:Hfuel. cbn [decode].
  rewrite (readEntryFile_declined _ _ _ _ Hd), Hfile. cbn [bind negb].
  fold topDir. rewrite Hdir. cbn [bind].
  rewrite decodeDirList_dirs, Hdirs. cbn [decodeDirList IsDir negb].
  change (truncateLastBracket (WriteAll newDecodeState (Str.js "{'a':1}")))
    with (Ok (true, {| buf := Str.js "{'a':1"; incomingBuf := Str.js "{'a':1";
                       hasMergeConflict := false |})).
  cbn [bind DirentName].
  change (topDir ++ "/" ++ toSlash "b" ++ "/index.json") with child.
  subst fuel1.
  rewrite (decode_file_leaf fs vscDriver fuel child _ _ dirList' Hd' Hfile' Hdir' Hdirs').
  reflexivity.
Qed.


Lemma splice_correctness_witness :
  decode Scenario.splice None 2 "/d/entry.json" newDecodeState =
  Ok {| buf := Str.js "{'a':1,'b':{'c':2}}";
        incomingBuf := Str.js "{'a':1,'b':{'c':2}}";
        hasMergeConflict := false |}
  /\ json.parse (Str.js "{'a':1,'b':{'c':2}}") =
     Some (json.JObject
             [("a", json.JNumber "1");
              ("b", json.JObject [("c", json.JNumber "2")])]).
Proof.
  apply (splice_correctness Scenario.splice None 0 "/d/entry.json"
           [{| DirentName := "entry.json"; IsDir := false |};
            {| DirentName := "b"; IsDir := true |}]
           [{| DirentName := "index.json"; IsDir := false |}]);
    (exact I || reflexivity).
Defined.

(** C8.  Empty entry: with no entry file and exactly the two subdirectories
    [x] and [y], each holding an [index.json] with [{}] and no subdirectory,
    a decode call from a fresh state produces [{"x":{},"y":{}}]: the missing
    file is not an error, the node starts with a synthesized open brace. *)
Theorem empty_entry (fs : FileSystem) (vscDriver : option VCSDriver)
    (fuel : nat) (path : string) (dirList dirListX dirListY : list Dirent) :
  let topDir := toSlash (filepath.Dir path) in
  let x := topDir ++ "/x/index.json" in
  let y := topDir ++ "/y/index.json" in
  declines vscDriver path ->
  declines vscDriver x ->
  declines vscDriver y ->
  readFile fs path = NotExist ->
  ReadDirents fs topDir = Ok dirList ->
  filter IsDir dirList = [{| DirentName := "x"; IsDir := true |};
                          {| DirentName := "y"; IsDir := true |}] ->
  readFile fs x = Found (Str.js "{}") ->
  ReadDirents fs (toSlash (filepath.Dir x)) = Ok dirListX ->
  filter IsDir dirListX = [] ->
  readFile fs y = Found (Str.js "{}") ->
  ReadDirents fs (toSlash (filepath.Dir y)) = Ok dirListY ->
  filter IsDir dirListY = [] ->
  decode fs vscDriver (S (S fuel)) path newDecodeState =
  Ok {| buf := Str.js "{'x':{},'y':{}}";
        incomingBuf := Str.js "{'x':{},'y':{}}";
        hasMergeConflict := false |}
  /\ json.parse (Str.js "{'x':{},'y':{}}") =
     Some (json.JObject [("x", json.JObject []); ("y", json.JObject [])]).
Proof.
  intros topDir x y Hd Hdx Hdy Hfile Hdir Hdirs Hx Hxdir Hxdirs Hy Hydir Hydirs.
  split; [|reflexivity].
  remember (S fuel) as fuel1 eqn:Hfuel. cbn [decode].
  rewrite (readEntryFile_declined _ _ _ _ Hd), Hfile. cbn [bind negb].
  fold topDir. rewrite Hdir. cbn [bind].
  rewrite decodeDirList_dirs, Hdirs. cbn [decodeDirList IsDir negb].
  change (truncateLastBracket (WriteRuneAll newDecodeState "{"))
    with (Ok (false, WriteRuneAll newDecodeState "{")).
  cbn [bind DirentName].
  change (topDir ++ "/" ++ toSlash "x" ++ "/index.json") with x.
  change (topDir ++ "/" ++ toSlash "y" ++ "/index.json") with y.
  subst fuel1.
  rewrite (decode_file_leaf fs vscDriver fuel x _ _ dirListX Hdx Hx Hxdir Hxdirs).
  cbn [bind].
  rewrite (decode_file_leaf fs vscDriver fuel y _ _ dirListY Hdy Hy Hydir Hydirs).
  reflexivity.
Qed.

Lemma empty_entry_witness :
  decode Scenario.emptyEntry None 2 "/d/entry.json" newDecodeState =
  Ok {| buf := Str.js "{'x':{},'y':{}}";
        incomingBuf := Str.js "{'x':{},'y':{}}";
        hasMergeConflict := false |}
  /\ json.parse (Str.js "{'x':{},'y':{}}") =
     Some (json.JObject [("x", json.JObject []); ("y", json.JObject [])]).
Proof.
  apply (empty_entry Scenario.emptyEntry None 0 "/d/entry.json"
           [{| DirentName := "x"; IsDir := true |};
            {| DirentName := "y"; IsDir := true |}]
           [{| DirentName := "index.json"; IsDir := false |}]
           [{| DirentName := "index.json"; IsDir := false |}]);
    (exact I || reflexivity).
Defined.

(** C7.  Conflict propagation: when the driver reports the entry file as
    contested with ours [{"a":1}] and theirs [{"a":2}], and the directory
    has no subdirectory, the primary buffer holds ours, the incoming buffer
    theirs, and [Unmarshal] returns the conflict flag [true] with the two
    parsed objects [a = 1] and [a = 2]. *)
Theorem conflict_propagation (fs : FileSystem) (driver : VCSDriver)
    (fuel : nat) (entryFilename : string) (dirList : list Dirent) :
  let path := toSlash (filepath.Abs (Getwd fs) entryFilename) in
  Init driver = None ->
  HandleFile driver path = Contested (Str.js "{'a':1}") (Str.js "{'a':2}") ->
  ReadDirents fs (toSlash (filepath.Dir path)) = Ok dirList ->
  filter IsDir dirList = [] ->
  decode fs (Some driver) (S fuel) path newDecodeState =
  Ok {| buf := Str.js "{'a':1}"; incomingBuf := Str.js "{'a':2}";
        hasMergeConflict := true |}
  /\ Unmarshal fs (S fuel) entryFilename Ptr (Some driver) =
     Ok (true,
         json.JObject [("a", json.JNumber "1")],
         Some (json.JObject [("a", json.JNumber "2")])).
Proof.
  intros path Hinit Hh Hdir Hdirs.
  pose proof (decode_contested_leaf fs driver fuel path newDecodeState
                _ _ dirList Hh Hdir Hdirs) as Hdec.
  split; [exact Hdec|].
  unfold Unmarshal. rewrite Hinit. cbn [bind]. fold path. rewrite Hdec.
  reflexivity.
Qed.

Lemma conflict_propagation_witness :
  decode Scenario.conflict (Some Scenario.conflictDriver) 1 "/d/entry.json"
    newDecodeState =
  Ok {| buf := Str.js "{'a':1}"; incomingBuf := Str.js "{'a':2}";
        hasMergeConflict := true |}
  /\ Unmarshal Scenario.conflict 1 "/d/entry.json" Ptr
       (Some Scenario.conflictDriver) =
     Ok (true,
         json.JObject [("a", json.JNumber "1")],
         Some (json.JObject [("a", json.JNumber "2")])).
Proof.
  apply (conflict_propagation Scenario.conflict Scenario.conflictDriver 0
           "/d/entry.json" [{| DirentName := "entry.json"; IsDir := false |}]);
    reflexivity.
Defined.

Lemma no_conflict_identity_witness :
  let state' := {| buf := Str.js "{'a':1,'b':{'c':2}}";
                   incomingBuf := Str.js "{'a':1,'b':{'c':2}}";
                   hasMergeConflict := false |} in
  buf state' = incomingBuf state' /\ hasMergeConflict state' = false.
Proof.
  apply (no_conflict_identity Scenario.splice None 2 "/d/entry.json"
           {| buf := Str.js "{'a':1,'b':{'c':2}}";
              incomingBuf := Str.js "{'a':1,'b':{'c':2}}";
              hasMergeConflict := false |});
    [exact I | reflexivity].
Defined.

Lemma truncate_primary_driven_witness :
  truncateLastBracket
    {| buf := Str.js "{'a':1}"; incomingBuf := Str.js "{'a':22222}";
       hasMergeConflict := true |} =
  Ok (true, {| buf := Str.js "{'a':1"; incomingBuf := Str.js "{'a':2";
               hasMergeConflict := true |}).
Proof.
  apply (truncate_primary_driven
           {| buf := Str.js "{'a':1}"; incomingBuf := Str.js "{'a':22222}";
              hasMergeConflict := true |} (Str.js "{'a':1") EmptyString);
    [reflexivity | reflexivity | cbn; lia].
Defined.

(** C2 at a failing input.  In the tree [Scenario.nested] the node [y] has
    no entry file, so its open brace is synthesized; for its first child [z]
    the decoder truncates all the same, at the closing brace of the sibling
    [x], and the assembled bytes are not a JSON text. *)
Theorem truncation_of_synthesized_node :
  truncateLastBracket
    {| buf := Str.js "{'x':{},'y':{"; incomingBuf := Str.js "{'x':{},'y':{";
       hasMergeConflict := false |} =
  Ok (true, {| buf := Str.js "{'x':{"; incomingBuf := Str.js "{'x':{";
               hasMergeConflict := false |})
  /\ decode Scenario.nested None 3 "/d/entry.json" newDecodeState =
     Ok {| buf := Str.js "{'x':{,'z':{}}}";
           incomingBuf := Str.js "{'x':{,'z':{}}}";
           hasMergeConflict := false |}
  /\ json.parse (Str.js "{'x':{,'z':{}}}") = None
  /\ Unmarshal Scenario.nested 3 "/d/entry.json" Ptr None =
     Panic ("failed to parse:" ++ Str.js "{'x':{,'z':{}}}").
Proof. repeat split; vm_compute; reflexivity. Qed.

(** ** Properties of the encoder *)

Lemma omitempty_skipped fieldType field :
  Str.Contains (tagOptions (jsonTag fieldType)) "omitempty" = true ->
  classify fieldType field = Skipped.
Proof.
  intros H. unfold classify.
  destruct (if Anonymous fieldType then _ else _); [reflexivity|].
  destruct (String.eqb (jsonTag fieldType) "-"); [reflexivity|].
  rewrite H. reflexivity.
Qed.

Section SkippedField.

Variable json_Marshal : value -> result string.
Variable enc encElem : string -> value -> encodeState -> result encodeState.

Lemma numField_skipped path fieldType field fields2 :
  classify fieldType field = Skipped ->
  forall fields1 buf hasWrittenFirstField state,
    numField json_Marshal enc encElem path
      (fields1 ++ (fieldType, field) :: fields2)
      buf hasWrittenFirstField state
    = numField json_Marshal enc encElem path (fields1 ++ fields2)
        buf hasWrittenFirstField state.
Proof.
  intros Hskip. induction fields1 as [|[ft f] fields1 IH];
    intros buf hw state.
  - cbn [app numField]. rewrite Hskip. reflexivity.
  - cbn [app numField]. destruct (classify ft f) as [|msg|name|name].
    + apply IH.
    + reflexivity.
    + destruct (Interface ft); cbn [bind]; try reflexivity.
      destruct (match f with StructValue _ => _ | _ => _ end);
        cbn [bind]; try reflexivity.
      apply IH.
    + destruct (Interface ft); cbn [bind]; try reflexivity.
      destruct (json_Marshal f); cbn [bind]; try reflexivity.
      apply IH.
Qed.

End SkippedField.

(** C9.  Omit-if-empty quirk: a struct field whose [json] tag options
    contain [omitempty] is excluded unconditionally.  Whatever its value,
    encoding the struct gives the outcome, and so the artifacts, of
    encoding the struct without the field. *)
Theorem omitempty_excluded (json_Marshal : value -> result string)
    (path : string) (fields1 fields2 : list (StructField * value))
    (fieldType : StructField) (field : value) (state : encodeState) :
  Str.Contains (tagOptions (jsonTag fieldType)) "omitempty" = true ->
  encode json_Marshal path
    (PtrValue (StructValue (fields1 ++ (fieldType, field) :: fields2))) state
  = encode json_Marshal path
      (PtrValue (StructValue (fields1 ++ fields2))) state.
Proof.
  intros H. cbn [encode encodeElem].
  apply numField_skipped, omitempty_skipped, H.
Qed.

Lemma omitempty_excluded_witness :
  encode marshalInt "/d/entry.json"
    (PtrValue (StructValue ([(Example.exported "A", IntValue 1)]
                            ++ (Example.omitempty "B", IntValue 5) :: [])))
    {| Directory := EmptyString; Paths := [] |}
  = encode marshalInt "/d/entry.json"
      (PtrValue (StructValue ([(Example.exported "A", IntValue 1)] ++ [])))
      {| Directory := EmptyString; Paths := [] |}.
Proof.
  apply (omitempty_excluded marshalInt "/d/entry.json"
           [(Example.exported "A", IntValue 1)] []
           (Example.omitempty "B") (IntValue 5)).
  reflexivity.
Defined.

(** C4 at a failing input.  For a struct whose only field is distributed
    the encoder does emit an artifact, with the lone open brace as its
    bytes; it is not a JSON text, and [Marshal], which indents every
    artifact, fails on it instead of returning the children's artifacts. *)
Theorem zero_inline_fields_artifact :
  marshal marshalInt "/d/entry.json" Example.onlyDistributed =
  Ok [{| Path := "/d/M/k/index.json"; Data := Str.js "{'X':1}" |};
      {| Path := "/d/entry.json"; Data := "{" |}]
  /\ json.parse "{" = None
  /\ Marshal marshalInt "/d/entry.json" Example.onlyDistributed =
     Error "invalid JSON".
Proof. repeat split; vm_compute; reflexivity. Qed.

(** C5 at a failing input.  The struct-valued field [C] tagged
    distributable is stored at [/d/C/], not at [/d/C/index.json], the path
    the decoder reads for the subdirectory [C]; the entry of the map [M] is
    stored at [/d/M/k/index.json]. *)
Theorem distributable_struct_path :
  marshal marshalInt "/d/entry.json" Example.withChild =
  Ok [{| Path := "/d/C/"; Data := Str.js "{'X':1}" |};
      {| Path := "/d/M/k/index.json"; Data := Str.js "{'X':2}" |};
      {| Path := "/d/entry.json"; Data := Str.js "{'A':1}" |}]
  /\ "/d/C/" <> toSlash (filepath.Dir "/d/entry.json") ++ "/" ++ toSlash "C"
               ++ "/index.json".
Proof. split; [vm_compute; reflexivity | vm_compute; discriminate]. Qed.

(** C1 at a failing input.  The artifacts [Marshal] returns for a document
    with the two distributed maps [M] and [N], written to disk and read back
    by [Unmarshal], give a document without [N], whose entry [j] has moved
    into [M]. *)
Theorem round_trip_merges_maps :
  exists files,
    Marshal marshalInt "/d/entry.json" Example.twoMaps = Ok files
    /\ Unmarshal (Disk.writeAll files) 3 "/d/entry.json" Ptr None =
       Ok (false,
           json.JObject
             [("A", json.JNumber "1");
              ("M", json.JObject
                      [("k", json.JObject [("X", json.JNumber "1")]);
                       ("j", json.JObject [("X", json.JNumber "2")])])],
           None).
Proof.
eexists. split; [vm_compute; reflexivity|].
vm_compute. reflexivity.
Qed.

(** * Further properties *)

(** ** More on the decoder *)

(** X1.  The rune scan of [truncateLastBracket] finds the last byte [}] of
    the buffer, whatever the bytes are (valid UTF-8 or not): the index is
    -1 exactly when the buffer has no such byte, and otherwise it is the
    offset of the last one. *)
Theorem scan_finds_last_bracket_byte (data : string) :
  (noBracket data = true /\ lastBracketIndexOf data = -1) \/
  (exists pre post,
      data = pre ++ String "}" post /\ noBracket post = true /\
      lastBracketIndexOf data = Z.of_nat (String.length pre)).
Proof. apply lastBracketIndexOf_spec. Qed.

Lemma noBracket_split pre post : noBracket (pre ++ String "}" post) = false.
Proof.
  induction pre as [|c pre IH]; cbn.
  - reflexivity.
  - rewrite IH. apply andb_false_r.
Qed.

Lemma truncate_no_bracket state :
  noBracket (buf state) = true ->
  truncateLastBracket state = Ok (false, state).
Proof.
  intros Hno. unfold truncateLastBracket.
  destruct (lastBracketIndexOf_spec (buf state))
    as [[_ ->] | (pre & post & Hbuf & _ & _)].
  - reflexivity.
  - rewrite Hbuf, noBracket_split in Hno. discriminate.
Qed.

(** X2.  On a primary buffer without a closing brace [truncateLastBracket]
    reports false and leaves both buffers and the flag as they are,
    whatever the incoming buffer holds. *)
Theorem truncate_without_bracket (state : decodeState) :
  noBracket (buf state) = true ->
  truncateLastBracket state = Ok (false, state).
Proof. apply truncate_no_bracket. Qed.

Lemma truncate_without_bracket_witness :
  truncateLastBracket
    {| buf := Str.js "{'a':["; incomingBuf := Str.js "{'a':[";
       hasMergeConflict := false |}
  = Ok (false, {| buf := Str.js "{'a':["; incomingBuf := Str.js "{'a':[";
                  hasMergeConflict := false |}).
Proof.
  apply (truncate_without_bracket
           {| buf := Str.js "{'a':["; incomingBuf := Str.js "{'a':[";
              hasMergeConflict := false |}).
  reflexivity.
Defined.

Lemma last_bracket_unique pre post pre' post' :
  pre ++ String "}" post = pre' ++ String "}" post' ->
  noBracket post = true -> noBracket post' = true -> pre = pre'.
Proof.
  revert pre'. induction pre as [|c pre IH]; intros [|c' pre'] H Hp Hp';
    cbn in H.
  - reflexivity.
  - injection H as <- H. subst post. rewrite noBracket_split in Hp.
    discriminate.
  - injection H as -> H. subst post'. rewrite noBracket_split in Hp'.
    discriminate.
  - injection H as -> H. f_equal. apply (IH _ H Hp Hp').
Qed.

(** The cut when both buffers hold the same bytes. *)
Lemma truncate_equal_at state pre post :
  buf state = pre ++ String "}" post ->
  incomingBuf state = pre ++ String "}" post ->
  noBracket post = true ->
  truncateLastBracket state =
  Ok (true, {| buf := pre; incomingBuf := pre;
               hasMergeConflict := hasMergeConflict state |}).
Proof.
  intros Hbuf Hinc Hpost. unfold truncateLastBracket.
  destruct (lastBracketIndexOf_spec (buf state))
    as [[Hno _] | (pre' & post' & Hbuf' & Hpost' & Hidx)].
  - rewrite Hbuf, noBracket_split in Hno. discriminate.
  - assert (pre' = pre) as ->.
    { rewrite Hbuf in Hbuf'. symmetry.
      apply (last_bracket_unique _ _ _ _ Hbuf' Hpost Hpost'). }
    rewrite Hidx.
    destruct (Z.eqb_spec (Z.of_nat (String.length pre)) (-1)); [lia|].
    cbn [negb]. rewrite Hinc, Hbuf.
    rewrite Truncate_in_range
      by (rewrite append_length; cbn [String.length]; lia).
    cbn [bind]. rewrite Nat2Z.id, take_append. reflexivity.
Qed.

Lemma truncate_equal state :
  buf state = incomingBuf state ->
  exists truncated state',
    truncateLastBracket state = Ok (truncated, state')
    /\ buf state' = incomingBuf state'
    /\ hasMergeConflict state' = hasMergeConflict state.
Proof.
  intros Heq.
  destruct (lastBracketIndexOf_spec (buf state))
    as [[Hno _] | (pre & post & Hbuf & Hpost & _)].
  - exists false, state. rewrite (truncate_no_bracket _ Hno).
    repeat split. exact Heq.
  - eexists true, _. rewrite (truncate_equal_at state pre post Hbuf
                                 (eq_trans (eq_sym Heq) Hbuf) Hpost).
    repeat split.
Qed.

(** X3.  While the two buffers are equal [truncateLastBracket] never
    panics; it leaves them equal and does not touch the conflict flag. *)
Theorem truncate_equal_buffers (state : decodeState) :
  buf state = incomingBuf state ->
  exists truncated state',
    truncateLastBracket state = Ok (truncated, state')
    /\ buf state' = incomingBuf state'
    /\ hasMergeConflict state' = hasMergeConflict state.
Proof. apply truncate_equal. Qed.

Lemma truncate_equal_buffers_witness :
  exists truncated state',
    truncateLastBracket
      {| buf := Str.js "{'a':1} "; incomingBuf := Str.js "{'a':1} ";
         hasMergeConflict := true |} = Ok (truncated, state')
    /\ buf state' = incomingBuf state'
    /\ hasMergeConflict state' = true.
Proof.
  apply (truncate_equal_buffers
           {| buf := Str.js "{'a':1} "; incomingBuf := Str.js "{'a':1} ";
              hasMergeConflict := true |}).
  reflexivity.
Defined.

(** ** Buffers may differ only after a conflict *)

Lemma WriteAll_agree state b : agree state -> agree (WriteAll state b).
Proof.
  intros H Hflag. cbn in *. rewrite (H Hflag). reflexivity.
Qed.

Lemma truncateLastBracket_agree state truncated state' :
  agree state ->
  truncateLastBracket state = Ok (truncated, state') ->
  agree state'.
Proof.
  intros Hs Htr Hflag.
  destruct (hasMergeConflict state) eqn:Hf.
  - unfold truncateLastBracket in Htr.
    destruct (negb _).
    + destruct (Buffer.Truncate (buf state) _); cbn in Htr; try discriminate.
      destruct (Buffer.Truncate (incomingBuf state) _); cbn in Htr;
        try discriminate.
      injection Htr as _ <-. cbn in Hflag. congruence.
    + injection Htr as _ <-. congruence.
  - destruct (truncate_equal state (Hs Hf))
      as (t & s1 & Htr' & Heq & _).
    rewrite Htr' in Htr. injection Htr as _ <-. exact Heq.
Qed.

Section Agree.

Variable fs : FileSystem.
Variable vscDriver : option VCSDriver.

Lemma readEntryFile_agree path state hasBracket state' :
  agree state ->
  readEntryFile fs vscDriver path state = Ok (hasBracket, state') ->
  agree state'.
Proof.
  intros Hs. unfold readEntryFile.
  destruct vscDriver as [driver|].
  - destruct (HandleFile driver path) as [|ours theirs|msg]; cbn [bind negb].
    + destruct (readFile fs path); intros H; try discriminate;
        injection H as _ <-; [apply WriteAll_agree|]; exact Hs.
    + intros H. injection H as _ <-. intros Hflag. discriminate Hflag.
    + discriminate.
  - cbn [bind negb].
    destruct (readFile fs path); intros H; try discriminate;
      injection H as _ <-; [apply WriteAll_agree|]; exact Hs.
Qed.

Lemma decodeDirList_agree decode topDir dirList :
  (forall path state state',
      agree state -> decode path state = Ok state' -> agree state') ->
  forall hasWrittenFirstField hasClosingBracket state hasClosingBracket' state',
    agree state ->
    decodeDirList decode topDir dirList
      hasWrittenFirstField hasClosingBracket state
    = Ok (hasClosingBracket', state') ->
    agree state'.
Proof.
  intros Hrec. induction dirList as [|fileOrDir dirList IH];
    intros hw hc state hc' state' Hs; cbn [decodeDirList].
  - intros H. injection H as _ <-. exact Hs.
  - destruct (IsDir fileOrDir); cbn [negb]; [|apply IH, Hs].
    destruct hw.
    + cbn [bind].
      destruct (decode _ _) as [s1| | |] eqn:Hdec; cbn [bind]; try discriminate.
      apply IH. eapply Hrec; [|exact Hdec].
      do 2 apply WriteAll_agree. exact Hs.
    + destruct (truncateLastBracket state) as [[truncated s0]| | |] eqn:Htr;
        cbn [bind]; try discriminate.
      pose proof (truncateLastBracket_agree _ _ _ Hs Htr) as Hs0.
      destruct truncated; cbn [bind].
      * destruct (decode _ _) as [s1| | |] eqn:Hdec; cbn [bind];
          try discriminate.
        apply IH. eapply Hrec; [|exact Hdec].
        do 2 apply WriteAll_agree. exact Hs0.
      * destruct (decode _ _) as [s1| | |] eqn:Hdec; cbn [bind];
          try discriminate.
        apply IH. eapply Hrec; [|exact Hdec].
        apply WriteAll_agree. exact Hs0.
Qed.

Lemma decode_agree fuel : forall path state state',
  agree state ->
  decode fs vscDriver fuel path state = Ok state' ->
  agree state'.
Proof.
  induction fuel as [|fuel IH]; intros path state state' Hs; cbn [decode].
  - discriminate.
  - destruct (readEntryFile fs vscDriver path state)
      as [[hasBracket s1]| | |] eqn:Hread; cbn [bind]; try discriminate.
    pose proof (readEntryFile_agree _ _ _ _ Hs Hread) as Hs1.
    destruct (ReadDirents fs _) as [dirList| | |]; cbn [bind];
      try discriminate.
    destruct (decodeDirList _ _ _ _ _ _) as [[hc s2]| | |] eqn:Hloop;
      cbn [bind]; try discriminate.
    assert (Hs2 : agree s2).
    { eapply decodeDirList_agree; [exact IH| |exact Hloop].
      destruct hasBracket; cbn [negb]; [exact Hs1|].
      apply WriteAll_agree, Hs1. }
    destruct hc; cbn [negb]; intros H; injection H as <-.
    + exact Hs2.
    + apply WriteAll_agree, Hs2.
Qed.

End Agree.

(** X4.  Whatever the driver does, a walk from the empty state that ends
    with the conflict flag unset ends with equal buffers: the incoming
    buffer differs from the primary one only after a conflict was
    flagged. *)
Theorem no_flag_equal_buffers (fs : FileSystem)
    (vscDriver : option VCSDriver) (fuel : nat) (path : string)
    (state' : decodeState) :
  decode fs vscDriver fuel path newDecodeState = Ok state' ->
  hasMergeConflict state' = false ->
  buf state' = incomingBuf state'.
Proof.
  intros Hdec.
  apply (decode_agree fs vscDriver fuel path newDecodeState state');
    [intros _; reflexivity | exact Hdec].
Qed.

Lemma no_flag_equal_buffers_witness :
  let state' := {| buf := Str.js "{'x':{},'y':{}}";
                   incomingBuf := Str.js "{'x':{},'y':{}}";
                   hasMergeConflict := false |} in
  buf state' = incomingBuf state'.
Proof.
  apply (no_flag_equal_buffers Scenario.emptyEntry
           (Some Scenario.conflictDriver) 2 "/d/main.json"
           {| buf := Str.js "{'x':{},'y':{}}";
              incomingBuf := Str.js "{'x':{},'y':{}}";
              hasMergeConflict := false |});
    reflexivity.
Defined.

(** The conflict flag is never reset. *)
Lemma truncateLastBracket_flag state truncated state' :
  truncateLastBracket state = Ok (truncated, state') ->
  hasMergeConflict state' = hasMergeConflict state.
Proof.
  unfold truncateLastBracket. destruct (negb _).
  - destruct (Buffer.Truncate (buf state) _); cbn; try discriminate.
    destruct (Buffer.Truncate (incomingBuf state) _); cbn; try discriminate.
    intros H. injection H as _ <-. reflexivity.
  - intros H. injection H as _ <-. reflexivity.
Qed.

Section Sticky.

Variable fs : FileSystem.
Variable vscDriver : option VCSDriver.

Lemma readEntryFile_sticky path state hasBracket state' :
  hasMergeConflict state = true ->
  readEntryFile fs vscDriver path state = Ok (hasBracket, state') ->
  hasMergeConflict state' = true.
Proof.
  intros Hs. unfold readEntryFile.
  destruct vscDriver as [driver|].
  - destruct (HandleFile driver path) as [|ours theirs|msg]; cbn [bind negb].
    + destruct (readFile fs path); intros H; try discriminate;
        injection H as _ <-; exact Hs.
    + intros H. injection H as _ <-. reflexivity.
    + discriminate.
  - cbn [bind negb].
    destruct (readFile fs path); intros H; try discriminate;
      injection H as _ <-; exact Hs.
Qed.

Lemma decodeDirList_sticky decode topDir dirList :
  (forall path state state',
      hasMergeConflict state = true -> decode path state = Ok state' ->
      hasMergeConflict state' = true) ->
  forall hasWrittenFirstField hasClosingBracket state hasClosingBracket' state',
    hasMergeConflict state = true ->
    decodeDirList decode topDir dirList
      hasWrittenFirstField hasClosingBracket state
    = Ok (hasClosingBracket', state') ->
    hasMergeConflict state' = true.
Proof.
  intros Hrec. induction dirList as [|fileOrDir dirList IH];
    intros hw hc state hc' state' Hs; cbn [decodeDirList].
  - intros H. injection H as _ <-. exact Hs.
  - destruct (IsDir fileOrDir); cbn [negb]; [|apply IH, Hs].
    destruct hw.
    + cbn [bind].
      destruct (decode _ _) as [s1| | |] eqn:Hdec; cbn [bind]; try discriminate.
      apply IH. eapply Hrec; [|exact Hdec]. exact Hs.
    + destruct (truncateLastBracket state) as [[truncated s0]| | |] eqn:Htr;
        cbn [bind]; try discriminate.
      pose proof (truncateLastBracket_flag _ _ _ Htr) as Hs0.
      rewrite Hs in Hs0.
      destruct truncated; cbn [bind];
        (destruct (decode _ _) as [s1| | |] eqn:Hdec; cbn [bind];
           try discriminate;
         apply IH; eapply Hrec; [|exact Hdec]; exact Hs0).
Qed.

Lemma decode_sticky fuel : forall path state state',
  hasMergeConflict state = true ->
  decode fs vscDriver fuel path state = Ok state' ->
  hasMergeConflict state' = true.
Proof.
  induction fuel as [|fuel IH]; intros path state state' Hs; cbn [decode].
  - discriminate.
  - destruct (readEntryFile fs vscDriver path state)
      as [[hasBracket s1]| | |] eqn:Hread; cbn [bind]; try discriminate.
    pose proof (readEntryFile_sticky _ _ _ _ Hs Hread) as Hs1.
    destruct (ReadDirents fs _) as [dirList| | |]; cbn [bind];
      try discriminate.
    destruct (decodeDirList _ _ _ _ _ _) as [[hc s2]| | |] eqn:Hloop;
      cbn [bind]; try discriminate.
    assert (Hs2 : hasMergeConflict s2 = true).
    { eapply decodeDirList_sticky; [exact IH| |exact Hloop].
      destruct hasBracket; exact Hs1. }
    destruct hc; cbn [negb]; intros H; injection H as <-; exact Hs2.
Qed.

End Sticky.

(** X5.  When the driver handles the entry file, every walk that returns
    has the conflict flag set, whatever the directory holds and whatever
    the flag was. *)
Theorem contested_entry_sets_flag (fs : FileSystem) (driver : VCSDriver)
    (fuel : nat) (path ours theirs : string) (state state' : decodeState) :
  HandleFile driver path = Contested ours theirs ->
  decode fs (Some driver) fuel path state = Ok state' ->
  hasMergeConflict state' = true.
Proof.
  intros Hh. destruct fuel as [|fuel]; cbn [decode]; [discriminate|].
  unfold readEntryFile. rewrite Hh. cbn [bind negb].
  destruct (ReadDirents fs _) as [dirList| | |]; cbn [bind];
    try discriminate.
  destruct (decodeDirList _ _ _ _ _ _) as [[hc s2]| | |] eqn:Hloop;
    cbn [bind]; try discriminate.
  assert (Hs2 : hasMergeConflict s2 = true).
  { eapply decodeDirList_sticky; [apply decode_sticky| |exact Hloop].
    reflexivity. }
  destruct hc; cbn [negb]; intros H; injection H as <-; exact Hs2.
Qed.

Lemma contested_entry_sets_flag_witness :
  hasMergeConflict
    {| buf := Str.js "{'a':1}"; incomingBuf := Str.js "{'a':2}";
       hasMergeConflict := true |} = true.
Proof.
  apply (contested_entry_sets_flag Scenario.conflict Scenario.conflictDriver
           1 "/d/entry.json" (Str.js "{'a':1}") (Str.js "{'a':2}")
           newDecodeState
           {| buf := Str.js "{'a':1}"; incomingBuf := Str.js "{'a':2}";
              hasMergeConflict := true |});
    reflexivity.
Defined.

(** ** Splicing children into a node *)

Lemma append_assoc3 (a b c : string) : (a ++ b) ++ c = a ++ b ++ c.
Proof. induction a as [|x a IH]; cbn; [reflexivity | rewrite IH; reflexivity]. Qed.

Lemma WriteAll_WriteAll state a b :
  WriteAll (WriteAll state a) b = WriteAll state (a ++ b).
Proof. unfold WriteAll. cbn. rewrite !append_assoc3. reflexivity. Qed.

Lemma decode_leafChild fs vscDriver fuel topDir c state :
  leafChild fs vscDriver topDir c ->
  decode fs vscDriver (S fuel)
    (topDir ++ "/" ++ toSlash (fst c) ++ "/index.json") state
  = Ok (WriteAll state (snd c)).
Proof.
  intros (Hd & Hfile & dirList & Hdir & Hno).
  apply (decode_file_leaf fs vscDriver fuel _ state (snd c) dirList
           Hd Hfile Hdir Hno).
Qed.

Lemma decodeDirList_more fs vscDriver fuel topDir children :
  Forall (leafChild fs vscDriver topDir) children ->
  forall hasClosingBracket state,
    decodeDirList (decode fs vscDriver (S fuel)) topDir (map dirent children)
      true hasClosingBracket state
    = Ok (hasClosingBracket, WriteAll state (moreMembers children)).
Proof.
  induction 1 as [|c children Hc _ IH]; intros hc state.
  - cbn. unfold WriteAll. destruct state as [b ib f]. cbn.
    assert (E : forall s, s ++ EmptyString = s)
      by (induction s as [|x s IHs]; cbn; [|rewrite IHs]; reflexivity).
    rewrite !E. reflexivity.
  - cbn [map decodeDirList dirent IsDir negb DirentName bind].
    rewrite (decode_leafChild fs vscDriver fuel topDir c _ Hc). cbn [bind].
    rewrite IH. unfold WriteStringAll. rewrite !WriteAll_WriteAll.
    cbn [moreMembers]. unfold memberText.
    rewrite !append_assoc3. reflexivity.
Qed.

(** X6.  An entry file whose last closing brace is followed by no other
    closing brace, in a directory whose subdirectories are leaves: the
    walk writes the file up to that brace, then a comma and one member
    per subdirectory, named by the directory and holding the bytes of its
    [index.json], in the order of the listing, then one closing brace.
    The bytes after the brace of the entry file are dropped. *)
Theorem splice_children (fs : FileSystem) (vscDriver : option VCSDriver)
    (fuel : nat) (path pre post : string) (state : decodeState)
    (dirList : list Dirent) (c : child) (children : list child) :
  let topDir := toSlash (filepath.Dir path) in
  buf state = incomingBuf state ->
  declines vscDriver path ->
  readFile fs path = Found (pre ++ String "}" post) ->
  noBracket post = true ->
  ReadDirents fs topDir = Ok dirList ->
  filter IsDir dirList = map dirent (c :: children) ->
  Forall (leafChild fs vscDriver topDir) (c :: children) ->
  decode fs vscDriver (S (S fuel)) path state =
  Ok (WriteAll state
        (pre ++ "," ++ memberText c ++ moreMembers children ++ "}")).
Proof.
  intros topDir Heq Hd Hfile Hpost Hdir Hdirs Hchildren.
  inversion Hchildren as [|c0 cs Hc Hcs]; subst c0 cs.
  remember (S fuel) as fuel1 eqn:Hfuel. cbn [decode].
  rewrite (readEntryFile_declined _ _ _ _ Hd), Hfile. cbn [bind negb].
  fold topDir. rewrite Hdir. cbn [bind].
  rewrite decodeDirList_dirs, Hdirs.
  cbn [map decodeDirList dirent IsDir negb DirentName].
  rewrite (truncate_equal_at (WriteAll state (pre ++ String "}" post))
             (buf state ++ pre) post).
  - assert (E : {| buf := buf state ++ pre; incomingBuf := buf state ++ pre;
                   hasMergeConflict :=
                     hasMergeConflict
                       (WriteAll state (pre ++ String "}" post)) |}
                = WriteAll state pre).
    { unfold WriteAll. cbn. rewrite <- Heq. reflexivity. }
    rewrite E. cbn [bind]. subst fuel1. unfold WriteStringAll.
    rewrite (decode_leafChild fs vscDriver fuel topDir c _ Hc). cbn [bind].
    rewrite (decodeDirList_more fs vscDriver fuel topDir children Hcs).
    cbn [bind negb]. unfold WriteRuneAll.
    rewrite !WriteAll_WriteAll. f_equal. f_equal. unfold memberText.
    rewrite !append_assoc3. reflexivity.
  - cbn. rewrite append_assoc3. reflexivity.
  - cbn. rewrite <- Heq, append_assoc3. reflexivity.
  - exact Hpost.
Qed.

Lemma decode_synthesized fs vscDriver fuel path state dirList children :
  let topDir := toSlash (filepath.Dir path) in
  noBracket (buf state) = true ->
  declines vscDriver path ->
  readFile fs path = NotExist ->
  ReadDirents fs topDir = Ok dirList ->
  filter IsDir dirList = map dirent children ->
  Forall (leafChild fs vscDriver topDir) children ->
  decode fs vscDriver (S (S fuel)) path state =
  Ok (WriteAll state ("{" ++ members children ++ "}")).
Proof.
  intros topDir Hno Hd Hfile Hdir Hdirs Hchildren.
  remember (S fuel) as fuel1 eqn:Hfuel. cbn [decode].
  rewrite (readEntryFile_declined _ _ _ _ Hd), Hfile. cbn [bind negb].
  fold topDir. rewrite Hdir. cbn [bind].
  rewrite decodeDirList_dirs, Hdirs.
  destruct Hchildren as [|c children Hc Hcs].
  - cbn [map decodeDirList bind negb members].
    unfold WriteRuneAll. rewrite WriteAll_WriteAll. reflexivity.
  - cbn [map decodeDirList dirent IsDir negb DirentName].
    rewrite truncate_no_bracket.
    + cbn [bind]. subst fuel1.
      rewrite (decode_leafChild fs vscDriver fuel topDir c _ Hc). cbn [bind].
      rewrite (decodeDirList_more fs vscDriver fuel topDir children Hcs).
      cbn [bind negb]. unfold WriteStringAll, WriteRuneAll.
      rewrite !WriteAll_WriteAll. cbn [members]. unfold memberText.
      rewrite !append_assoc3. reflexivity.
    + cbn. clear - Hno. induction (buf state) as [|x b IH]; cbn in *.
      * reflexivity.
      * apply andb_true_iff in Hno. destruct Hno as [-> Hno].
        cbn. apply IH, Hno.
Qed.

(** X7.  Without an entry file, and with no closing brace in the buffer
    so far, the walk writes an open brace, one member per leaf
    subdirectory in the order of the listing, separated by commas, and a
    closing brace; with no subdirectory it writes [{}]. *)
Theorem synthesized_children (fs : FileSystem)
    (vscDriver : option VCSDriver) (fuel : nat) (path : string)
    (state : decodeState) (dirList : list Dirent) (children : list child) :
  let topDir := toSlash (filepath.Dir path) in
  noBracket (buf state) = true ->
  declines vscDriver path ->
  readFile fs path = NotExist ->
  ReadDirents fs topDir = Ok dirList ->
  filter IsDir dirList = map dirent children ->
  Forall (leafChild fs vscDriver topDir) children ->
  decode fs vscDriver (S (S fuel)) path state =
  Ok (WriteAll state ("{" ++ members children ++ "}")).
Proof.
  apply decode_synthesized.
Qed.

Lemma splice_children_witness :
  decode twoChildren None 2 "/d/entry.json" newDecodeState =
  Ok (WriteAll newDecodeState (Str.js "{'a':1,'b':{'c':2},'e':[1]}")).
Proof.
  apply (splice_children twoChildren None 0 "/d/entry.json"
           (Str.js "{'a':1") " " newDecodeState
           [{| DirentName := "entry.json"; IsDir := false |};
            {| DirentName := "b"; IsDir := true |};
            {| DirentName := "e"; IsDir := true |}]
           ("b", Str.js "{'c':2}") [("e", "[1]")]);
    try reflexivity; try exact I.
  repeat constructor;
    exists [{| DirentName := "index.json"; IsDir := false |}];
    split; reflexivity.
Defined.

Lemma synthesized_children_witness :
  decode Scenario.emptyEntry None 2 "/d/entry.json" newDecodeState =
  Ok (WriteAll newDecodeState (Str.js "{'x':{},'y':{}}")).
Proof.
  apply (synthesized_children Scenario.emptyEntry None 0 "/d/entry.json"
           newDecodeState
           [{| DirentName := "x"; IsDir := true |};
            {| DirentName := "y"; IsDir := true |}]
           [("x", "{}"); ("y", "{}")]);
    try reflexivity; try exact I.
  repeat constructor;
    exists [{| DirentName := "index.json"; IsDir := false |}];
    split; reflexivity.
Defined.

(** X8.  The entry file of a directory without subdirectories is appended
    to both buffers byte for byte, whatever it holds (JSON or not), and
    the flag is left as it is. *)
Theorem file_copied_verbatim (fs : FileSystem)
    (vscDriver : option VCSDriver) (fuel : nat) (path b : string)
    (state : decodeState) (dirList : list Dirent) :
  declines vscDriver path ->
  readFile fs path = Found b ->
  ReadDirents fs (toSlash (filepath.Dir path)) = Ok dirList ->
  filter IsDir dirList = [] ->
  decode fs vscDriver (S fuel) path state =
  Ok {| buf := buf state ++ b; incomingBuf := incomingBuf state ++ b;
        hasMergeConflict := hasMergeConflict state |}.
Proof.
  intros Hd Hfile Hdir Hno.
  apply (decode_file_leaf fs vscDriver fuel path state b dirList
           Hd Hfile Hdir Hno).
Qed.

Lemma file_copied_verbatim_witness :
  decode Scenario.conflict None 1 "/d/entry.json" newDecodeState =
  Ok {| buf := "<<<<<<< HEAD"; incomingBuf := "<<<<<<< HEAD";
        hasMergeConflict := false |}.
Proof.
  apply (file_copied_verbatim Scenario.conflict None 0 "/d/entry.json"
           "<<<<<<< HEAD" newDecodeState
           [{| DirentName := "entry.json"; IsDir := false |}]);
    try reflexivity; exact I.
Defined.

(** ** Plain files do not matter *)

Lemma decodeDirList_ext decode1 decode2 topDir dirList :
  (forall path state, decode1 path state = decode2 path state) ->
  forall hasWrittenFirstField hasClosingBracket state,
    decodeDirList decode1 topDir dirList
      hasWrittenFirstField hasClosingBracket state
    = decodeDirList decode2 topDir dirList
        hasWrittenFirstField hasClosingBracket state.
Proof.
  intros Hext. induction dirList as [|fileOrDir dirList IH]; intros hw hc state.
  - reflexivity.
  - cbn [decodeDirList]. destruct (negb (IsDir fileOrDir)); [apply IH|].
    destruct (if hw then _ else _) as [[hc' s']| | |]; cbn [bind];
      try reflexivity.
    rewrite Hext. destruct (decode2 _ _); cbn [bind]; try reflexivity.
    apply IH.
Qed.

(** X9.  The walk depends on the plain files of a directory only through
    their contents as entry files: two file systems with the same files
    and, in every directory, the same subdirectories in the same order
    give the same outcome, error and panic included. *)
Theorem plain_files_ignored (fs1 fs2 : FileSystem)
    (vscDriver : option VCSDriver) (fuel : nat) :
  (forall path, readFile fs1 path = readFile fs2 path) ->
  (forall dir, sameDirs (ReadDirents fs1 dir) (ReadDirents fs2 dir)) ->
  forall path state,
    decode fs1 vscDriver fuel path state
    = decode fs2 vscDriver fuel path state.
Proof.
  intros Hfiles Hdirs. induction fuel as [|fuel IH]; intros path state.
  - reflexivity.
  - cbn [decode]. unfold readEntryFile. rewrite Hfiles.
    match goal with
    | |- bind ?r _ = bind ?r _ => destruct r as [[hb s1]| | |]
    end; cbn [bind]; try reflexivity.
    destruct (Hdirs (toSlash (filepath.Dir path)))
      as [-> | (l1 & l2 & -> & -> & Hsame)].
    + destruct (ReadDirents fs2 _); cbn [bind]; try reflexivity.
      rewrite (decodeDirList_ext _ _ _ _ IH). reflexivity.
    + cbn [bind]. rewrite (decodeDirList_ext _ _ _ _ IH).
      rewrite decodeDirList_dirs, Hsame, <- decodeDirList_dirs. reflexivity.
Qed.

Lemma plain_files_ignored_witness :
  decode Scenario.splice None 2 "/d/entry.json" newDecodeState
  = decode (withPlainFile Scenario.splice "README.md") None 2
      "/d/entry.json" newDecodeState.
Proof.
  apply (plain_files_ignored Scenario.splice
           (withPlainFile Scenario.splice "README.md") None 2).
  - intros path. reflexivity.
  - intros dir. unfold sameDirs. cbn [withPlainFile ReadDirents].
    destruct (ReadDirents Scenario.splice dir) as [l| | |];
      [right | left; reflexivity ..].
    exists l, (l ++ [{| DirentName := "README.md"; IsDir := false |}])%list.
    repeat split. rewrite filter_app. cbn. rewrite app_nil_r. reflexivity.
Defined.

(** ** More on the encoder *)

Lemma dash_skipped fieldType field :
  jsonTag fieldType = "-" -> classify fieldType field = Skipped.
Proof.
  intros H. unfold classify.
  destruct (if Anonymous fieldType then _ else _); [reflexivity|].
  rewrite H. reflexivity.
Qed.

(** X10.  A field tagged [json:"-"] is left out: encoding the struct
    equals encoding it without the field, whatever the value and the
    other tags of the field (a [dfjson:"distributable"] tag included). *)
Theorem dash_tag_excluded (json_Marshal : value -> result string)
    (path : string) (fields1 fields2 : list (StructField * value))
    (fieldType : StructField) (field : value) (state : encodeState) :
  jsonTag fieldType = "-" ->
  encode json_Marshal path
    (PtrValue (StructValue (fields1 ++ (fieldType, field) :: fields2))) state
  = encode json_Marshal path
      (PtrValue (StructValue (fields1 ++ fields2))) state.
Proof.
  intros H. cbn [encode encodeElem].
  apply numField_skipped, dash_skipped, H.
Qed.

(** X11.  An unexported field that is not embedded is left out: encoding
    the struct equals encoding it without the field, whatever its value
    and its tags. *)
Theorem unexported_field_excluded (json_Marshal : value -> result string)
    (path : string) (fields1 fields2 : list (StructField * value))
    (fieldType : StructField) (field : value) (state : encodeState) :
  Anonymous fieldType = false ->
  PkgPath fieldType <> EmptyString ->
  encode json_Marshal path
    (PtrValue (StructValue (fields1 ++ (fieldType, field) :: fields2))) state
  = encode json_Marshal path
      (PtrValue (StructValue (fields1 ++ fields2))) state.
Proof.
  intros Hanon Hpkg. cbn [encode encodeElem].
  apply numField_skipped. unfold classify, isUnexported. rewrite Hanon.
  destruct (String.eqb_spec (PkgPath fieldType) EmptyString) as [E|_];
    [contradiction | reflexivity].
Qed.

(** *** The inline text of a struct *)

Section InlineFields.

Variable json_Marshal : value -> result string.
Variable enc encElem : string -> value -> encodeState -> result encodeState.

Lemma numField_inline path fields :
  forall ms buf state,
    Forall2 (inlineAs json_Marshal) fields ms ->
    numField json_Marshal enc encElem path fields buf true state
    = Ok {| Directory := Directory state;
            Paths := Paths state
                     ++ [{| Path := path;
                            Data := buf ++ moreMembers ms ++ "}" |}] |}.
Proof.
  induction fields as [|[ft f] fields IH]; intros ms buf state H;
    inversion H as [|x m l ms' (Hc & Hx & Hm) Hrest]; subst.
  - reflexivity.
  - cbn [numField]. cbn [fst snd] in Hc, Hx, Hm. rewrite Hc.
    unfold Interface. rewrite Hx. cbn [bind]. rewrite Hm. cbn [bind].
    rewrite (IH ms' _ state Hrest). cbn [moreMembers]. unfold memberText.
    rewrite !append_assoc3. reflexivity.
Qed.

Lemma numField_inline_first path fields m ms state :
  Forall2 (inlineAs json_Marshal) fields (m :: ms) ->
  numField json_Marshal enc encElem path fields "{" false state
  = Ok {| Directory := Directory state;
          Paths := Paths state
                   ++ [{| Path := path;
                          Data := "{" ++ members (m :: ms) ++ "}" |}] |}.
Proof.
  intros H. inversion H as [|[ft f] m' fields' ms' (Hc & Hx & Hm) Hrest];
    subst.
  cbn [numField]. cbn [fst snd] in Hc, Hx, Hm. rewrite Hc.
  unfold Interface. rewrite Hx. cbn [bind]. rewrite Hm. cbn [bind].
  rewrite (numField_inline path fields' ms _ state Hrest).
  cbn [members]. unfold memberText. rewrite !append_assoc3. reflexivity.
Qed.

End InlineFields.

Lemma encode_inline_struct json_Marshal path fields m ms state :
  Forall2 (inlineAs json_Marshal) fields (m :: ms) ->
  encode json_Marshal path (PtrValue (StructValue fields)) state
  = Ok {| Directory := Directory state;
          Paths := Paths state
                   ++ [{| Path := path;
                          Data := "{" ++ members (m :: ms) ++ "}" |}] |}.
Proof.
  intros H. cbn [encode encodeElem]. apply numField_inline_first, H.
Qed.

(** X12.  A pointer to a struct whose fields are all inline adds exactly
    one artifact, at [path], whose bytes are an open brace, the members
    [name:text] in the order of the fields separated by commas, and a
    closing brace. *)
Theorem inline_fields_text (json_Marshal : value -> result string)
    (path : string) (fields : list (StructField * value))
    (m : child) (ms : list child) (state : encodeState) :
  Forall2 (inlineAs json_Marshal) fields (m :: ms) ->
  encode json_Marshal path (PtrValue (StructValue fields)) state
  = Ok {| Directory := Directory state;
          Paths := Paths state
                   ++ [{| Path := path;
                          Data := "{" ++ members (m :: ms) ++ "}" |}] |}.
Proof.
  intros H. cbn [encode encodeElem]. apply numField_inline_first, H.
Qed.

Lemma inline_fields_text_witness :
  encode marshalInt "/d/entry.json"
    (PtrValue (StructValue [(Example.exported "A", IntValue 1);
                            (Example.exported "B", IntValue (-2))]))
    {| Directory := EmptyString; Paths := [] |}
  = Ok {| Directory := EmptyString;
          Paths := [{| Path := "/d/entry.json";
                       Data := Str.js "{'A':1,'B':-2}" |}] |}.
Proof.
  apply (inline_fields_text marshalInt "/d/entry.json"
           [(Example.exported "A", IntValue 1);
            (Example.exported "B", IntValue (-2))]
           ("A", "1") [("B", "-2")]
           {| Directory := EmptyString; Paths := [] |}).
  repeat constructor.
Defined.

(** *** The layout of a map *)

Lemma encode_inline_entries json_Marshal path entries children state :
  Forall2 (inlineEntry json_Marshal) entries children ->
  encode json_Marshal path (MapValue entries) state
  = Ok {| Directory := Directory state;
          Paths := Paths state ++ map (entryFile path) children |}.
Proof.
  intros H. cbn [encode]. revert state.
  induction H
    as [|[k v] c entries children (Hk & fields & m & ms & Hv & Hf & Hc) _ IH];
    intros state.
  - cbn. rewrite app_nil_r. destruct state; reflexivity.
  - cbn [mapKeys]. cbn [fst snd] in Hk, Hv. subst k v.
    cbn [keyString bind].
    rewrite (encode_inline_struct json_Marshal _ fields m ms state Hf).
    cbn [bind]. rewrite IH. cbn [Directory Paths map].
    rewrite <- app_assoc. unfold entryFile at 2. rewrite Hc. reflexivity.
Qed.

(** X13.  A map with plain keys whose values are pointers to structs of
    inline fields adds one artifact per entry, in the order of the
    entries, at [Dir(path)/key/index.json]; the map itself adds no
    artifact. *)
Theorem map_entries_layout (json_Marshal : value -> result string)
    (path : string) (entries : list (MapKey * value))
    (children : list child) (state : encodeState) :
  Forall2 (inlineEntry json_Marshal) entries children ->
  encode json_Marshal path (MapValue entries) state
  = Ok {| Directory := Directory state;
          Paths := Paths state ++ map (entryFile path) children |}.
Proof.
  apply encode_inline_entries.
Qed.

Lemma map_entries_layout_witness :
  encode marshalInt "/d/entry.json"
    (MapValue [(PlainKey "k", PtrValue (Example.leaf 1));
               (PlainKey "j", PtrValue (Example.leaf 2))])
    {| Directory := EmptyString; Paths := [] |}
  = Ok {| Directory := EmptyString;
          Paths := [{| Path := "/d/k/index.json"; Data := Str.js "{'X':1}" |};
                    {| Path := "/d/j/index.json"; Data := Str.js "{'X':2}" |}]
       |}.
Proof.
  apply (map_entries_layout marshalInt "/d/entry.json"
           [(PlainKey "k", PtrValue (Example.leaf 1));
            (PlainKey "j", PtrValue (Example.leaf 2))]
           [("k", Str.js "{'X':1}"); ("j", Str.js "{'X':2}")]
           {| Directory := EmptyString; Paths := [] |}).
  repeat constructor.
  - exists [(Example.exported "X", IntValue 1)], ("X", "1"), [].
    repeat constructor.
  - exists [(Example.exported "X", IntValue 2)], ("X", "2"), [].
    repeat constructor.
Defined.

Lemma dash_tag_excluded_witness :
  encode marshalInt "/d/entry.json"
    (PtrValue (StructValue
       ([(Example.exported "A", IntValue 1)]
        ++ ({| Name := "Secret"; PkgPath := EmptyString; Anonymous := false;
               Tag := [("json", "-"); ("dfjson", "distributable")] |},
            OtherValue "chan" "0xc000") :: [])))
    {| Directory := EmptyString; Paths := [] |}
  = encode marshalInt "/d/entry.json"
      (PtrValue (StructValue ([(Example.exported "A", IntValue 1)] ++ [])))
      {| Directory := EmptyString; Paths := [] |}.
Proof.
  apply (dash_tag_excluded marshalInt "/d/entry.json"
           [(Example.exported "A", IntValue 1)] []
           {| Name := "Secret"; PkgPath := EmptyString; Anonymous := false;
              Tag := [("json", "-"); ("dfjson", "distributable")] |}
           (OtherValue "chan" "0xc000")).
  reflexivity.
Defined.

Lemma unexported_field_excluded_witness :
  encode marshalInt "/d/entry.json"
    (PtrValue (StructValue
       ([] ++ ({| Name := "cache"; PkgPath := "example.com/doc";
                  Anonymous := false;
                  Tag := [("dfjson", "distributable")] |},
               MapValue []) :: [(Example.exported "A", IntValue 1)])))
    {| Directory := EmptyString; Paths := [] |}
  = encode marshalInt "/d/entry.json"
      (PtrValue (StructValue ([] ++ [(Example.exported "A", IntValue 1)])))
      {| Directory := EmptyString; Paths := [] |}.
Proof.
  apply (unexported_field_excluded marshalInt "/d/entry.json"
           [] [(Example.exported "A", IntValue 1)]
           {| Name := "cache"; PkgPath := "example.com/doc";
              Anonymous := false; Tag := [("dfjson", "distributable")] |}
           (MapValue []));
    [reflexivity | discriminate].
Defined.

(** *** The encoder only adds artifacts *)

Lemma appended_refl state : appended state state.
Proof.
  split; [reflexivity|]. exists []. split; [|constructor].
  rewrite app_nil_r. reflexivity.
Qed.

Lemma appended_trans s1 s2 s3 :
  appended s1 s2 -> appended s2 s3 -> appended s1 s3.
Proof.
  intros (Hd1 & n1 & Hp1 & Hn1) (Hd2 & n2 & Hp2 & Hn2).
  split; [congruence|]. exists (n1 ++ n2)%list. split.
  - rewrite Hp2, Hp1, app_assoc. reflexivity.
  - apply Forall_app. split; assumption.
Qed.

Lemma ownLast_appended path s s' : ownLast path s s' -> appended s s'.
Proof.
  intros (Hd & older & data & Hp & Ho). split; [exact Hd|].
  exists (older ++ [{| Path := path; Data := String "{" data |}])%list.
  split; [exact Hp|]. apply Forall_app. split; [exact Ho|].
  constructor; [|constructor]. exists data. reflexivity.
Qed.

Lemma appended_ownLast path s1 s2 s3 :
  appended s1 s2 -> ownLast path s2 s3 -> ownLast path s1 s3.
Proof.
  intros (Hd1 & n1 & Hp1 & Hn1) (Hd2 & older & data & Hp2 & Ho).
  split; [congruence|]. exists (n1 ++ older)%list, data. split.
  - rewrite Hp2, Hp1, <- !app_assoc. reflexivity.
  - apply Forall_app. split; assumption.
Qed.

Section Appends.

Variable json_Marshal : value -> result string.

Lemma mapKeys_appended path entries :
  Forall (fun kv => keeps json_Marshal (snd kv)) entries ->
  forall state state',
    mapKeys (encode json_Marshal) path entries state = Ok state' ->
    appended state state'.
Proof.
  induction 1 as [|[k v] entries [Hv _] _ IH]; intros state state'.
  - cbn. intros H. injection H as <-. apply appended_refl.
  - cbn [mapKeys]. destruct (keyString k); cbn [bind]; try discriminate.
    cbn [snd] in Hv.
    destruct v; try discriminate;
      (destruct (encode json_Marshal _ _ state) as [s1| | |] eqn:He;
         cbn [bind]; try discriminate;
       intros H; eapply appended_trans; [eapply Hv, He | apply IH, H]).
Qed.

Lemma numField_ownLast path fields :
  Forall (fun fv => keeps json_Marshal (snd fv)) fields ->
  forall rest hasWrittenFirstField state state',
    numField json_Marshal (encode json_Marshal) (encodeElem json_Marshal)
      path fields (String "{" rest) hasWrittenFirstField state = Ok state' ->
    ownLast path state state'.
Proof.
  induction 1 as [|[ft f] fields [Hf Hfe] _ IH]; intros rest hw state state'.
  - cbn [numField]. intros H. injection H as <-. split; [reflexivity|].
    exists [], (if hw then rest ++ "}" else rest). split; [|constructor].
    destruct hw; reflexivity.
  - cbn [numField]. cbn [snd] in Hf, Hfe.
    destruct (classify ft f) as [|msg|name|name].
    + apply IH.
    + discriminate.
    + destruct (Interface ft); cbn [bind]; try discriminate.
      destruct (match f with StructValue _ => _ | _ => _ end)
        as [s1| | |] eqn:He; cbn [bind]; try discriminate.
      intros H. eapply appended_ownLast; [|apply (IH _ _ _ _ H)].
      destruct f; try (eapply Hf, He).
      eapply ownLast_appended, Hfe, He.
    + destruct (Interface ft); cbn [bind]; try discriminate.
      destruct (json_Marshal f); cbn [bind]; try discriminate.
      destruct hw; cbn [append]; apply IH.
Qed.

Lemma encode_keeps : forall v, keeps json_Marshal v.
Proof.
  fix IH 1. intros [fields|entries|el|n|k r]; split; intros path state state';
    cbn [encode encodeElem]; try discriminate.
  - apply numField_ownLast. clear - IH.
    induction fields as [|[ft f] fields IHf]; constructor;
      [apply IH | exact IHf].
  - apply mapKeys_appended. clear - IH.
    induction entries as [|[k v] entries IHe]; constructor;
      [apply IH | exact IHe].
  - intros H. eapply ownLast_appended. apply (IH el), H.
Qed.

End Appends.

(** X14.  [encode] only appends: when it returns, the directory and the
    artifacts recorded before are unchanged and in place, and every
    artifact it added starts with an open brace. *)
Theorem encode_keeps_artifacts (json_Marshal : value -> result string)
    (path : string) (v : value) (state state' : encodeState) :
  encode json_Marshal path v state = Ok state' ->
  Directory state' = Directory state /\
  exists new,
    Paths state' = (Paths state ++ new)%list /\
    Forall (fun f => exists rest, Data f = String "{" rest) new.
Proof.
  intros H. apply (proj1 (encode_keeps json_Marshal v) path state state' H).
Qed.

(** X15.  The artifact of a struct comes after the artifacts of everything
    distributed below it: when [encode] returns on a pointer, the last
    artifact added is the one at [path]. *)
Theorem struct_artifact_last (json_Marshal : value -> result string)
    (path : string) (el : value) (state state' : encodeState) :
  encode json_Marshal path (PtrValue el) state = Ok state' ->
  exists older data,
    Paths state' =
    (Paths state ++ older ++ [{| Path := path; Data := String "{" data |}])%list.
Proof.
  intros H. cbn [encode] in H.
  destruct (proj2 (encode_keeps json_Marshal el) path state state' H)
    as (_ & older & data & Hp & _).
  exists older, data. exact Hp.
Qed.

Lemma encode_keeps_artifacts_witness :
  Directory {| Directory := EmptyString;
               Paths := [{| Path := "/old.json"; Data := "{}" |};
                         {| Path := "/d/k/index.json";
                            Data := Str.js "{'X':1}" |}] |} = EmptyString /\
  exists new,
    Paths {| Directory := EmptyString;
             Paths := [{| Path := "/old.json"; Data := "{}" |};
                       {| Path := "/d/k/index.json";
                          Data := Str.js "{'X':1}" |}] |}
    = ([{| Path := "/old.json"; Data := "{}" |}] ++ new)%list /\
    Forall (fun f => exists rest, Data f = String "{" rest) new.
Proof.
  apply (encode_keeps_artifacts marshalInt "/d/entry.json"
           (MapValue [(PlainKey "k", PtrValue (Example.leaf 1))])
           {| Directory := EmptyString;
              Paths := [{| Path := "/old.json"; Data := "{}" |}] |}).
  reflexivity.
Defined.

Lemma struct_artifact_last_witness :
  exists older data,
    [{| Path := "/d/M/k/index.json"; Data := Str.js "{'X':1}" |};
     {| Path := "/d/N/j/index.json"; Data := Str.js "{'X':2}" |};
     {| Path := "/d/entry.json"; Data := Str.js "{'A':1}" |}]
    = ([] ++ older
       ++ [{| Path := "/d/entry.json"; Data := String "{" data |}])%list.
Proof.
  apply (struct_artifact_last marshalInt "/d/entry.json"
           (StructValue
              [(Example.exported "A", IntValue 1);
               (Example.distributable "M",
                MapValue [(PlainKey "k", PtrValue (Example.leaf 1))]);
               (Example.distributable "N",
                MapValue [(PlainKey "j", PtrValue (Example.leaf 2))])])
           {| Directory := EmptyString; Paths := [] |}
           {| Directory := EmptyString;
              Paths := [{| Path := "/d/M/k/index.json";
                           Data := Str.js "{'X':1}" |};
                        {| Path := "/d/N/j/index.json";
                           Data := Str.js "{'X':2}" |};
                        {| Path := "/d/entry.json";
                           Data := Str.js "{'A':1}" |}] |}).
  reflexivity.
Defined.

(** *** What [Marshal] accepts *)

Lemma parseMembers_object fuel : forall s acc v rest,
  json.parseMembers fuel s acc = Some (v, rest) ->
  exists ms, v = json.JObject ms.
Proof.
  induction fuel as [|fuel IH]; intros s acc v rest; cbn [json.parseMembers].
  - discriminate.
  - destruct (json.skipSpace s) as [|c s']; [discriminate|].
    destruct (Ascii.eqb c "034"); [|discriminate].
    destruct (json.parseString s') as [[key r1]|]; [|discriminate].
    destruct (json.startsWith ":" (json.skipSpace r1)); [|discriminate].
    destruct (json.parseValue fuel _) as [[v1 r2]|]; [|discriminate].
    destruct (json.startsWith "," (json.skipSpace r2)).
    + apply IH.
    + destruct (json.startsWith "}" (json.skipSpace r2)); [|discriminate].
      intros H. injection H as <- _. eexists. reflexivity.
Qed.

Lemma parse_open_brace rest v :
  json.parse (String "{" rest) = Some v -> exists ms, v = json.JObject ms.
Proof.
  unfold json.parse.
  destruct (json.parseValue _ _) as [[v' r]|] eqn:Hp; [|discriminate].
  destruct (String.eqb _ _); [|discriminate].
  intros H. injection H as ->.
  cbn [json.parseValue json.skipSpace] in Hp.
  change (json.isSpace "{") with false in Hp. cbn iota in Hp.
  change (Ascii.eqb "{" "{") with true in Hp. cbn iota in Hp.
  destruct (json.startsWith "}" (json.skipSpace rest)).
  - injection Hp as <- _. eexists. reflexivity.
  - apply parseMembers_object in Hp. exact Hp.
Qed.

Lemma indentAll_spec files prefix indent : forall out,
  indentAll files prefix indent = Ok out ->
  map Path out = map Path files /\
  Forall (fun f => exists parsed, json.parse (Data f) = Some parsed) files.
Proof.
  induction files as [|item files IH]; intros out; cbn [indentAll].
  - intros H. injection H as <-. split; [reflexivity | constructor].
  - unfold json.Indent at 1.
    destruct (json.parse (Data item)) as [parsed|] eqn:Hp; cbn [bind];
      [|discriminate].
    destruct (indentAll files prefix indent) as [rest| | |]; cbn [bind];
      try discriminate.
    intros H. injection H as <-. destruct (IH rest eq_refl) as [Hpaths Hall].
    split; [cbn; rewrite Hpaths; reflexivity|].
    constructor; [exists parsed; exact Hp | exact Hall].
Qed.

(** X16.  When [Marshal] returns files, they have the paths of the
    artifacts of [marshal], in the same order, and every artifact was a
    JSON object: a single artifact that is not valid JSON makes [Marshal]
    return no file at all. *)
Theorem Marshal_accepts_objects (json_Marshal : value -> result string)
    (entryFilename : string) (v : value) (files : list JSONFile) :
  Marshal json_Marshal entryFilename v = Ok files ->
  exists fragments,
    marshal json_Marshal entryFilename v = Ok fragments /\
    map Path files = map Path fragments /\
    Forall (fun f => exists ms, json.parse (Data f) = Some (json.JObject ms))
      fragments.
Proof.
  unfold Marshal, marshalIndent.
  destruct (marshal json_Marshal entryFilename v) as [fragments| | |] eqn:Hm;
    cbn [bind]; try discriminate.
  intros Hind. exists fragments. split; [reflexivity|].
  destruct (indentAll_spec _ _ _ _ Hind) as [Hpaths Hvalid].
  split; [exact Hpaths|].
  unfold marshal in Hm.
  destruct (encode json_Marshal entryFilename v _) as [s| | |] eqn:He;
    cbn [bind] in Hm; try discriminate.
  injection Hm as <-.
  destruct (proj1 (encode_keeps json_Marshal v) _ _ _ He)
    as (_ & new & Hp & Hopen).
  cbn [Paths app] in Hp. rewrite Hp in Hvalid |- *.
  clear - Hvalid Hopen.
  induction new as [|f new IH]; constructor;
    inversion Hvalid as [|? ? [parsed Hparsed] Hrest];
    inversion Hopen as [|? ? [rest Hdata] Hopen']; subst.
  - rewrite Hdata in Hparsed |- *.
    destruct (parse_open_brace _ _ Hparsed) as [ms ->].
    exists ms. exact Hparsed.
  - apply IH; assumption.
Qed.

Lemma Marshal_accepts_objects_witness :
  exists fragments,
    marshal marshalInt "/d/entry.json" Example.twoMaps = Ok fragments /\
    map Path
      [{| Path := "/d/M/k/index.json";
          Data := json.indentLoop EmptyString (String "009" EmptyString)
                    (Str.js "{'X':1}") false false false 0 |};
       {| Path := "/d/N/j/index.json";
          Data := json.indentLoop EmptyString (String "009" EmptyString)
                    (Str.js "{'X':2}") false false false 0 |};
       {| Path := "/d/entry.json";
          Data := json.indentLoop EmptyString (String "009" EmptyString)
                    (Str.js "{'A':1}") false false false 0 |}]
    = map Path fragments /\
    Forall (fun f => exists ms, json.parse (Data f) = Some (json.JObject ms))
      fragments.
Proof.
  apply (Marshal_accepts_objects marshalInt "/d/entry.json" Example.twoMaps).
  vm_compute. reflexivity.
Defined.

(** ** The git driver *)

Lemma Split_nonempty s : dfgit.Split s <> [].
Proof.
  destruct s as [|c s]; cbn; [discriminate|].
  destruct (dfgit.Split s); [discriminate|].
  destruct (Ascii.eqb c dfgit.newline); discriminate.
Qed.

Lemma Split_line l rest :
  dfgit.noNewline l = true ->
  dfgit.Split (l ++ String dfgit.newline rest) = l :: dfgit.Split rest.
Proof.
  induction l as [|c l IH]; cbn [append dfgit.noNewline dfgit.Split].
  - intros _. rewrite Ascii.eqb_refl.
    destruct (dfgit.Split rest) eqn:E; [|reflexivity].
    exfalso. apply (Split_nonempty rest E).
  - intros H. apply andb_true_iff in H. destruct H as [Hc Hl].
    rewrite (IH Hl). apply negb_true_iff in Hc. rewrite Hc. reflexivity.
Qed.

Lemma Split_statusOutput ls :
  Forall wellFormedLine ls ->
  dfgit.Split (dfgit.statusOutput ls)
  = (map dfgit.lineText ls ++ [EmptyString])%list.
Proof.
  induction 1 as [|l ls Hl _ IH]; cbn [dfgit.statusOutput map app].
  - reflexivity.
  - rewrite (Split_line _ _ Hl), IH. reflexivity.
Qed.

Lemma firstn_all_but_last {A} (xs : list A) (x : A) :
  firstn (List.length (xs ++ [x]) - 1) (xs ++ [x]) = xs.
Proof.
  rewrite length_app. cbn [List.length].
  replace (List.length xs + 1 - 1)%nat with (List.length xs) by lia.
  rewrite firstn_app, Nat.sub_diag, firstn_all. cbn. apply app_nil_r.
Qed.

Lemma changedFiles_lines top ls : forall acc,
  dfgit.changedFiles top (map dfgit.lineText ls) acc
  = Ok (acc ++ map (absPath top) (filter dfgit.isModified ls))%list.
Proof.
  induction ls as [|l ls IH]; intros acc;
    cbn [map filter dfgit.changedFiles].
  - rewrite app_nil_r. reflexivity.
  - unfold dfgit.lineText at 1. unfold dfgit.isModified at 1.
    destruct (Ascii.eqb (dfgit.status l) "M"); cbn [negb].
    + cbn [String.length Nat.ltb Nat.leb Str.skip]. rewrite IH.
      cbn [map]. rewrite <- app_assoc. reflexivity.
    + apply IH.
Qed.

Lemma skip_append a b : Str.skip (String.length a) (a ++ b) = b.
Proof. induction a as [|c a IH]; cbn; [destruct b; reflexivity | exact IH]. Qed.

Lemma Init_of_reports os git top ls :
  gitReports os git top ls ->
  dfgit.Init os =
  Ok {| dfgit.gitPath := git; dfgit.gitTopPath := top;
        dfgit.conflictedFileMap :=
          map (absPath top) (filter dfgit.isModified ls) |}.
Proof.
  intros (Hlook & Htop & Hdiff & Hls). unfold dfgit.Init, dfgit.execCommand.
  rewrite Hlook, Htop. cbn [String.length Nat.ltb Nat.leb bind].
  rewrite append_length. cbn [String.length].
  replace (String.length top + 1)%nat with (S (String.length top)) by lia.
  cbn [Nat.eqb Nat.sub]. rewrite Nat.sub_0_r, take_append.
  rewrite Hdiff. cbn [String.length Nat.ltb Nat.leb].
  rewrite (Split_statusOutput ls Hls), firstn_all_but_last.
  rewrite changedFiles_lines. reflexivity.
Qed.

(** X17.  On a machine where git is found and reports its top directory
    and its changed files without error output, [Init] returns nil and
    registers exactly the lines of status [M], each as
    [top/relative path], in the order of the report; the lines of any
    other status are skipped. *)
Theorem Init_registers_modified (os : dfgit.Exec) (git top : string)
    (ls : list dfgit.statusLine) :
  gitReports os git top ls ->
  dfgit.Init os =
  Ok {| dfgit.gitPath := git; dfgit.gitTopPath := top;
        dfgit.conflictedFileMap :=
          map (absPath top) (filter dfgit.isModified ls) |}.
Proof. apply Init_of_reports. Qed.

Lemma gitBox_reports : gitReports gitBox "/usr/bin/git" "/repo" gitLines.
Proof. repeat split; repeat constructor. Qed.

Lemma Init_registers_modified_witness :
  dfgit.Init gitBox =
  Ok {| dfgit.gitPath := "/usr/bin/git"; dfgit.gitTopPath := "/repo";
        dfgit.conflictedFileMap :=
          map (absPath "/repo") (filter dfgit.isModified gitLines) |}.
Proof.
  apply (Init_registers_modified gitBox "/usr/bin/git" "/repo" gitLines).
  repeat split; repeat constructor.
Defined.

Lemma existsb_eqb_In path paths :
  In path paths -> existsb (String.eqb path) paths = true.
Proof.
  intros H. apply existsb_exists. exists path. split; [exact H|].
  apply String.eqb_refl.
Qed.

Lemma HandleFile_at os vcs rel :
  In (dfgit.gitTopPath vcs ++ "/" ++ rel) (dfgit.conflictedFileMap vcs) ->
  dfgit.HandleFile os vcs (dfgit.gitTopPath vcs ++ "/" ++ rel) =
  match dfgit.execCommand os (dfgit.gitPath vcs)
          ["--no-pager"; "show"; "HEAD:" ++ rel] with
  | Ok oursData =>
      match dfgit.execCommand os (dfgit.gitPath vcs)
              ["--no-pager"; "show"; "MERGE_HEAD:" ++ rel] with
      | Ok theirsData => Contested oursData theirsData
      | Error msg | Panic msg => DriverError msg
      | OutOfFuel => DriverError EmptyString
      end
  | Error msg | Panic msg => DriverError msg
  | OutOfFuel => DriverError EmptyString
  end.
Proof.
  intros Hin. unfold dfgit.HandleFile. rewrite (existsb_eqb_In _ _ Hin).
  rewrite append_length. cbn [append String.length].
  destruct (Nat.ltb_spec (String.length (dfgit.gitTopPath vcs)
                          + S (String.length rel))
              (String.length (dfgit.gitTopPath vcs) + 1)) as [Hlt|_];
    [lia|].
  change (String "/" rel) with ("/" ++ rel).
  rewrite <- append_assoc3.
  replace (String.length (dfgit.gitTopPath vcs) + 1)%nat
    with (String.length (dfgit.gitTopPath vcs ++ "/"))
    by (rewrite append_length; reflexivity).
  rewrite skip_append. reflexivity.
Qed.

(** X18.  For a registered path [HandleFile] asks git for [HEAD:rel] and
    [MERGE_HEAD:rel], where [rel] is the path relative to the top
    directory, and hands over the two outputs as the primary and the
    incoming version. *)
Theorem HandleFile_registered (os : dfgit.Exec) (vcs : dfgit.GitDriver)
    (rel ours theirs : string) :
  In (dfgit.gitTopPath vcs ++ "/" ++ rel) (dfgit.conflictedFileMap vcs) ->
  dfgit.Command os (dfgit.gitPath vcs) ["--no-pager"; "show"; "HEAD:" ++ rel]
  = dfgit.Ran ours EmptyString ->
  dfgit.Command os (dfgit.gitPath vcs)
    ["--no-pager"; "show"; "MERGE_HEAD:" ++ rel]
  = dfgit.Ran theirs EmptyString ->
  dfgit.HandleFile os vcs (dfgit.gitTopPath vcs ++ "/" ++ rel)
  = Contested ours theirs.
Proof.
  intros Hin Hours Htheirs. rewrite (HandleFile_at os vcs rel Hin).
  unfold dfgit.execCommand. rewrite Hours, Htheirs. reflexivity.
Qed.

Lemma HandleFile_registered_witness :
  dfgit.HandleFile gitBox
    {| dfgit.gitPath := "/usr/bin/git"; dfgit.gitTopPath := "/repo";
       dfgit.conflictedFileMap := ["/repo/d/entry.json"] |}
    ("/repo" ++ "/" ++ "d/entry.json")
  = Contested (Str.js "{'a':1}") (Str.js "{'a':2}").
Proof.
  apply (HandleFile_registered gitBox
           {| dfgit.gitPath := "/usr/bin/git"; dfgit.gitTopPath := "/repo";
              dfgit.conflictedFileMap := ["/repo/d/entry.json"] |}
           "d/entry.json" (Str.js "{'a':1}") (Str.js "{'a':2}"));
    [left; reflexivity | reflexivity | reflexivity].
Defined.

Lemma modified_registered top ls l :
  In l ls -> dfgit.status l = "M"%char ->
  In (top ++ "/" ++ dfgit.file l)
     (map (absPath top) (filter dfgit.isModified ls)).
Proof.
  intros Hin Hstatus. apply (in_map (absPath top)). apply filter_In.
  split; [exact Hin|]. unfold dfgit.isModified. rewrite Hstatus. reflexivity.
Qed.

(** X19.  The git driver and the decoder together: a file that git lists
    as modified, in a directory without subdirectories, is decoded to the
    [HEAD] version in the primary buffer and the [MERGE_HEAD] version in
    the incoming buffer, with the conflict flag set; the file on disk is
    not read. *)
Theorem git_conflict_reaches_decoder (os : dfgit.Exec) (fs : FileSystem)
    (git top : string) (ls : list dfgit.statusLine) (l : dfgit.statusLine)
    (ours theirs : string) (fuel : nat) (dirList : list Dirent) :
  let path := top ++ "/" ++ dfgit.file l in
  gitReports os git top ls ->
  In l ls ->
  dfgit.status l = "M"%char ->
  dfgit.Command os git ["--no-pager"; "show"; "HEAD:" ++ dfgit.file l]
  = dfgit.Ran ours EmptyString ->
  dfgit.Command os git ["--no-pager"; "show"; "MERGE_HEAD:" ++ dfgit.file l]
  = dfgit.Ran theirs EmptyString ->
  ReadDirents fs (toSlash (filepath.Dir path)) = Ok dirList ->
  filter IsDir dirList = [] ->
  exists vcs,
    dfgit.Init os = Ok vcs /\
    decode fs (Some (dfgit.initialized os vcs)) (S fuel) path newDecodeState
    = Ok {| buf := ours; incomingBuf := theirs; hasMergeConflict := true |}.
Proof.
  intros path Hgit Hin Hstatus Hours Htheirs Hdir Hdirs.
  eexists. split; [apply (Init_of_reports os git top ls Hgit)|].
  apply (decode_contested_leaf fs _ fuel path newDecodeState ours theirs
           dirList); [|exact Hdir|exact Hdirs].
  cbn [dfgit.initialized HandleFile].
  set (vcs := {| dfgit.gitPath := git; dfgit.gitTopPath := top;
                 dfgit.conflictedFileMap :=
                   map (absPath top) (filter dfgit.isModified ls) |}).
  change path with (dfgit.gitTopPath vcs ++ "/" ++ dfgit.file l).
  rewrite (HandleFile_at os vcs (dfgit.file l)).
  - unfold dfgit.execCommand. cbn [dfgit.gitPath vcs].
    rewrite Hours, Htheirs. reflexivity.
  - apply modified_registered; assumption.
Qed.

Lemma git_conflict_reaches_decoder_witness :
  exists vcs,
    dfgit.Init gitBox = Ok vcs /\
    decode gitRepo (Some (dfgit.initialized gitBox vcs)) 1
      ("/repo" ++ "/" ++ "d/entry.json") newDecodeState
    = Ok {| buf := Str.js "{'a':1}"; incomingBuf := Str.js "{'a':2}";
            hasMergeConflict := true |}.
Proof.
  apply (git_conflict_reaches_decoder gitBox gitRepo "/usr/bin/git" "/repo"
           gitLines
           {| dfgit.status := "M"; dfgit.separator := "009";
              dfgit.file := "d/entry.json" |}
           (Str.js "{'a':1}") (Str.js "{'a':2}") 0
           [{| DirentName := "entry.json"; IsDir := false |}]);
    try reflexivity.
  - repeat split; repeat constructor.
  - left. reflexivity.
Defined.

(** X20.  The git driver declines every path that is not the absolute
    path of a line of status [M]: such a file is taken from disk. *)
Theorem only_modified_contested (os : dfgit.Exec) (git top : string)
    (ls : list dfgit.statusLine) (path : string) :
  gitReports os git top ls ->
  (forall l, In l ls -> dfgit.status l = "M"%char ->
             path <> top ++ "/" ++ dfgit.file l) ->
  exists vcs,
    dfgit.Init os = Ok vcs /\ dfgit.HandleFile os vcs path = Declined.
Proof.
  intros Hgit Hnot. eexists. split; [apply (Init_of_reports _ _ _ _ Hgit)|].
  unfold dfgit.HandleFile. cbn [dfgit.conflictedFileMap].
  destruct (existsb _ _) eqn:E; [|reflexivity].
  apply existsb_exists in E. destruct E as (p & Hp & Heq).
  apply String.eqb_eq in Heq. subst p.
  apply in_map_iff in Hp. destruct Hp as (l & Hl & Hin).
  apply filter_In in Hin. destruct Hin as [Hin Hmod].
  exfalso. apply (Hnot l Hin); [|symmetry; exact Hl].
  unfold dfgit.isModified in Hmod. apply Ascii.eqb_eq in Hmod. exact Hmod.
Qed.

Lemma only_modified_contested_witness :
  exists vcs,
    dfgit.Init gitBox = Ok vcs /\
    dfgit.HandleFile gitBox vcs "/repo/d/new.json" = Declined.
Proof.
  apply (only_modified_contested gitBox "/usr/bin/git" "/repo" gitLines
           "/repo/d/new.json").
  - repeat split; repeat constructor.
  - intros l [<- | [<- | []]] Hstatus; [discriminate | discriminate Hstatus].
Defined.

(** X21.  When git writes to its standard error while showing the [HEAD]
    version of a registered file, the decoder panics with that output
    and reads nothing. *)
Theorem git_failure_stops_decoder (os : dfgit.Exec) (fs : FileSystem)
    (vcs : dfgit.GitDriver) (rel stdOutput errOutput : string) (fuel : nat)
    (state : decodeState) :
  In (dfgit.gitTopPath vcs ++ "/" ++ rel) (dfgit.conflictedFileMap vcs) ->
  dfgit.Command os (dfgit.gitPath vcs) ["--no-pager"; "show"; "HEAD:" ++ rel]
  = dfgit.Ran stdOutput errOutput ->
  errOutput <> EmptyString ->
  decode fs (Some (dfgit.initialized os vcs)) (S fuel)
    (dfgit.gitTopPath vcs ++ "/" ++ rel) state
  = Panic errOutput.
Proof.
  intros Hin Hrun Herr. cbn [decode]. unfold readEntryFile.
  cbn [dfgit.initialized HandleFile].
  rewrite (HandleFile_at os vcs rel Hin). unfold dfgit.execCommand.
  rewrite Hrun. destruct errOutput as [|c e]; [contradiction|]. reflexivity.
Qed.

Lemma git_failure_stops_decoder_witness :
  decode gitRepo
    (Some (dfgit.initialized gitBox
             {| dfgit.gitPath := "/usr/bin/git"; dfgit.gitTopPath := "/repo";
                dfgit.conflictedFileMap := ["/repo/d/gone.json"] |})) 1
    ("/repo" ++ "/" ++ "d/gone.json") newDecodeState
  = Panic "fatal: bad revision".
Proof.
  apply (git_failure_stops_decoder gitBox gitRepo
           {| dfgit.gitPath := "/usr/bin/git"; dfgit.gitTopPath := "/repo";
              dfgit.conflictedFileMap := ["/repo/d/gone.json"] |}
           "d/gone.json" EmptyString "fatal: bad revision" 0 newDecodeState);
    [left; reflexivity | reflexivity | discriminate].
Defined.

(** *** A struct with a distributed map *)

Section DistributedField.

Variable json_Marshal : value -> result string.
Variable enc encElem : string -> value -> encodeState -> result encodeState.

Lemma numField_inline_prefix path fields1 ms1 rest :
  Forall2 (inlineAs json_Marshal) fields1 ms1 ->
  forall buf hasWrittenFirstField state,
    numField json_Marshal enc encElem path (fields1 ++ rest)
      buf hasWrittenFirstField state
    = numField json_Marshal enc encElem path rest
        (buf ++ (if hasWrittenFirstField then moreMembers ms1
                 else members ms1))
        (hasWrittenFirstField || negb (Nat.eqb (List.length ms1) 0)) state.
Proof.
  induction 1 as [|[ft f] m fields1 ms1 (Hc & Hx & Hm) _ IH];
    intros buf hw state.
  - cbn [app List.length Nat.eqb negb moreMembers members].
    rewrite orb_false_r.
    assert (E : forall s, s ++ EmptyString = s)
      by (induction s as [|x s IHs]; cbn; [|rewrite IHs]; reflexivity).
    destruct hw; rewrite E; reflexivity.
  - cbn [app numField]. cbn [fst snd] in Hc, Hx, Hm. rewrite Hc.
    unfold Interface. rewrite Hx. cbn [bind]. rewrite Hm. cbn [bind].
    rewrite IH. cbn [List.length Nat.eqb negb]. rewrite orb_true_r.
    f_equal. destruct hw; cbn [moreMembers members]; unfold memberText;
      rewrite !append_assoc3; reflexivity.
Qed.

End DistributedField.

Lemma members_app ms1 ms2 :
  members (ms1 ++ ms2) =
  match ms1 with
  | [] => members ms2
  | _ => members ms1 ++ moreMembers ms2
  end.
Proof.
  destruct ms1 as [|m ms1]; [reflexivity|].
  cbn [app members]. rewrite append_assoc3. f_equal.
  induction ms1 as [|m' ms1 IH]; cbn [app moreMembers].
  - reflexivity.
  - rewrite IH, !append_assoc3. reflexivity.
Qed.

(** X22.  A struct with inline fields and one distributed map of pointers
    to structs of inline fields: the artifacts of the entries come first,
    at [Dir(Dir(path)/name/)/key/index.json], then the artifact of the
    struct, whose bytes hold the inline members only, wherever the
    distributed field stands among them. *)
Theorem distributed_map_field (json_Marshal : value -> result string)
    (path name : string) (fields1 fields2 : list (StructField * value))
    (ms1 ms2 : list child) (fieldType : StructField)
    (entries : list (MapKey * value)) (children : list child)
    (state : encodeState) :
  Forall2 (inlineAs json_Marshal) fields1 ms1 ->
  Forall2 (inlineAs json_Marshal) fields2 ms2 ->
  (ms1 ++ ms2 <> [])%list ->
  classify fieldType (MapValue entries) = Distributed name ->
  isUnexported fieldType = false ->
  Forall2 (inlineEntry json_Marshal) entries children ->
  encode json_Marshal path
    (PtrValue (StructValue
       (fields1 ++ (fieldType, MapValue entries) :: fields2))) state
  = Ok {| Directory := Directory state;
          Paths :=
            (Paths state
             ++ map (entryFile (filepath.Dir path ++ "/" ++ name ++ "/"))
                  children
             ++ [{| Path := path;
                    Data := "{" ++ members (ms1 ++ ms2) ++ "}" |}])%list |}.
Proof.
  intros H1 H2 Hne Hclass Hexp Hentries. cbn [encode encodeElem].
  rewrite (numField_inline_prefix json_Marshal _ _ path fields1 ms1 _ H1).
  cbn [numField]. rewrite Hclass. unfold Interface. rewrite Hexp.
  cbn [bind].
  rewrite (encode_inline_entries json_Marshal _ entries children state
             Hentries).
  cbn [bind].
  destruct ms1 as [|m1 ms1].
  - cbn [List.length Nat.eqb negb orb members app] in *.
    destruct ms2 as [|m2 ms2]; [contradiction Hne; reflexivity|].
    rewrite (numField_inline_first json_Marshal _ _ path fields2 m2 ms2 _ H2).
    cbn [Directory Paths]. rewrite <- app_assoc. reflexivity.
  - cbn [List.length Nat.eqb negb orb].
    rewrite (numField_inline json_Marshal _ _ path fields2 ms2 _ _ H2).
    cbn [Directory Paths]. rewrite <- app_assoc, members_app.
    rewrite !append_assoc3. reflexivity.
Qed.

Lemma distributed_map_field_witness :
  encode marshalInt "/d/entry.json"
    (PtrValue (StructValue
       ([(Example.exported "A", IntValue 1)]
        ++ (Example.distributable "M",
            MapValue [(PlainKey "k", PtrValue (Example.leaf 1));
                      (PlainKey "j", PtrValue (Example.leaf 2))])
           :: [(Example.exported "B", IntValue 3)])))
    {| Directory := EmptyString; Paths := [] |}
  = Ok {| Directory := EmptyString;
          Paths := [{| Path := "/d/M/k/index.json";
                       Data := Str.js "{'X':1}" |};
                    {| Path := "/d/M/j/index.json";
                       Data := Str.js "{'X':2}" |};
                    {| Path := "/d/entry.json";
                       Data := Str.js "{'A':1,'B':3}" |}] |}.
Proof.
  apply (distributed_map_field marshalInt "/d/entry.json" "M"
           [(Example.exported "A", IntValue 1)]
           [(Example.exported "B", IntValue 3)]
           [("A", "1")] [("B", "3")]
           (Example.distributable "M")
           [(PlainKey "k", PtrValue (Example.leaf 1));
            (PlainKey "j", PtrValue (Example.leaf 2))]
           [("k", Str.js "{'X':1}"); ("j", Str.js "{'X':2}")]
           {| Directory := EmptyString; Paths := [] |});
    try reflexivity; try discriminate; repeat constructor.
  - exists [(Example.exported "X", IntValue 1)], ("X", "1"), [].
    repeat constructor.
  - exists [(Example.exported "X", IntValue 2)], ("X", "2"), [].
    repeat constructor.
Defined.

(** ** Writing a map and reading it back *)

(** X23.  Writing a map and reading it back: when the file system holds
    the artifacts that [marshal] returns for a map of pointers to structs
    of inline fields, the keys have no backslash, and the directory lists
    the keys as its subdirectories, the walk from the empty state yields
    the object with one member per entry, each holding the bytes written
    for it. *)
Theorem map_written_then_read (json_Marshal : value -> result string)
    (fs : FileSystem) (vscDriver : option VCSDriver) (fuel : nat)
    (path : string) (entries : list (MapKey * value))
    (children : list child) (files : list JSONFile)
    (dirList : list Dirent) :
  Forall2 (inlineEntry json_Marshal) entries children ->
  Forall (fun c => toSlash (fst c) = fst c) children ->
  marshal json_Marshal path (MapValue entries) = Ok files ->
  Forall (holds fs vscDriver) files ->
  declines vscDriver path ->
  readFile fs path = NotExist ->
  ReadDirents fs (toSlash (filepath.Dir path)) = Ok dirList ->
  filter IsDir dirList = map dirent children ->
  decode fs vscDriver (S (S fuel)) path newDecodeState
  = Ok (WriteAll newDecodeState ("{" ++ members children ++ "}")).
Proof.
  intros Hentries Hkeys Hmarshal Hholds Hd Hfile Hdir Hdirs.
  unfold marshal in Hmarshal.
  rewrite (encode_inline_entries json_Marshal _ _ _ _ Hentries) in Hmarshal.
  cbn in Hmarshal. injection Hmarshal as <-.
  apply (decode_synthesized fs vscDriver fuel path newDecodeState dirList
           children); try assumption; [reflexivity|].
  clear - Hkeys Hholds.
  induction children as [|c children IH]; constructor.
  - inversion Hkeys as [|? ? Hk _]; inversion Hholds as [|? ? Hh _]; subst.
    unfold leafChild. rewrite Hk. exact Hh.
  - inversion Hkeys; inversion Hholds; subst. apply IH; assumption.
Qed.

Lemma map_written_then_read_witness :
  decode (Disk.writeAll [Scenario.file "/d/k/index.json" "{'X':1}";
                         Scenario.file "/d/j/index.json" "{'X':2}"])
    None 2 "/d/entry.json" newDecodeState
  = Ok (WriteAll newDecodeState (Str.js "{'k':{'X':1},'j':{'X':2}}")).
Proof.
  apply (map_written_then_read marshalInt
           (Disk.writeAll [Scenario.file "/d/k/index.json" "{'X':1}";
                           Scenario.file "/d/j/index.json" "{'X':2}"])
           None 0 "/d/entry.json"
           [(PlainKey "k", PtrValue (Example.leaf 1));
            (PlainKey "j", PtrValue (Example.leaf 2))]
           [("k", Str.js "{'X':1}"); ("j", Str.js "{'X':2}")]
           [Scenario.file "/d/k/index.json" "{'X':1}";
            Scenario.file "/d/j/index.json" "{'X':2}"]
           [{| DirentName := "k"; IsDir := true |};
            {| DirentName := "j"; IsDir := true |}]);
    try reflexivity; try exact I.
  - repeat constructor.
    + exists [(Example.exported "X", IntValue 1)], ("X", "1"), [].
      repeat constructor.
    + exists [(Example.exported "X", IntValue 2)], ("X", "2"), [].
      repeat constructor.
  - repeat constructor.
  - repeat constructor;
      exists [{| DirentName := "index.json"; IsDir := false |}];
      split; reflexivity.
Defined.

(** ** What the encoder refuses *)

Lemma stringOption_unsupported fieldType field :
  stringOption fieldType ->
  exists msg, classify fieldType field = Unsupported msg.
Proof.
  intros (Hx & Hdash & Homit & Hstr). unfold classify. rewrite Hx.
  rewrite andb_false_l.
  destruct (Anonymous fieldType);
    (destruct (String.eqb_spec (jsonTag fieldType) "-") as [E|_];
     [contradiction|]; rewrite Homit, Hstr; eexists; reflexivity).
Qed.

Section Refused.

Variable json_Marshal : value -> result string.
Variable enc encElem : string -> value -> encodeState -> result encodeState.

Lemma numField_unsupported path fieldType field fields :
  In (fieldType, field) fields ->
  stringOption fieldType ->
  forall buf hasWrittenFirstField state state',
    numField json_Marshal enc encElem path fields
      buf hasWrittenFirstField state <> Ok state'.
Proof.
  intros Hin Hopt.
  induction fields as [|[ft f] fields IH]; [destruct Hin|].
  intros buf hw state state'. cbn [numField].
  destruct Hin as [E|Hin].
  - injection E as -> ->.
    destruct (stringOption_unsupported fieldType field Hopt) as (msg & ->).
    discriminate.
  - specialize (IH Hin).
    destruct (classify ft f); [apply IH | discriminate | |].
    + destruct (Interface ft); cbn [bind]; try discriminate.
      destruct (match f with StructValue _ => _ | _ => _ end);
        cbn [bind]; try discriminate. apply IH.
    + destruct (Interface ft); cbn [bind]; try discriminate.
      destruct (json_Marshal f); cbn [bind]; try discriminate. apply IH.
Qed.

Lemma mapKeys_struct_value path mapKey fields entries :
  In (mapKey, StructValue fields) entries ->
  forall state state', mapKeys enc path entries state <> Ok state'.
Proof.
  intros Hin. induction entries as [|[k v] entries IH]; [destruct Hin|].
  intros state state'. cbn [mapKeys].
  destruct (keyString k); cbn [bind]; try discriminate.
  destruct Hin as [E|Hin].
  - injection E as -> ->. discriminate.
  - specialize (IH Hin).
    destruct v; try discriminate;
      (destruct (enc _ _ state); cbn [bind]; try discriminate; apply IH).
Qed.

End Refused.

(** X24.  A struct with a field whose [json] options name [string] never
    encodes, wherever the field stands and whatever the other fields
    are, also when the field is tagged [dfjson:"distributable"]: the loop
    panics at it, or fails before it. *)
Theorem string_option_never_encodes (json_Marshal : value -> result string)
    (path : string) (fields : list (StructField * value))
    (fieldType : StructField) (field : value) (state state' : encodeState) :
  In (fieldType, field) fields ->
  stringOption fieldType ->
  encode json_Marshal path (PtrValue (StructValue fields)) state
  <> Ok state'.
Proof.
  intros Hin Hopt. cbn [encode encodeElem].
  apply (numField_unsupported json_Marshal _ _ path fieldType field fields
           Hin Hopt).
Qed.

Lemma string_option_never_encodes_witness :
  encode marshalInt "/d/entry.json"
    (PtrValue (StructValue
       [(Example.exported "A", IntValue 1);
        ({| Name := "B"; PkgPath := EmptyString; Anonymous := false;
            Tag := [("json", "b,string")] |}, IntValue 2)]))
    {| Directory := EmptyString; Paths := [] |}
  <> Ok {| Directory := EmptyString; Paths := [] |}.
Proof.
  apply (string_option_never_encodes marshalInt "/d/entry.json"
           [(Example.exported "A", IntValue 1);
            ({| Name := "B"; PkgPath := EmptyString; Anonymous := false;
                Tag := [("json", "b,string")] |}, IntValue 2)]
           {| Name := "B"; PkgPath := EmptyString; Anonymous := false;
              Tag := [("json", "b,string")] |}
           (IntValue 2)).
  - right. left. reflexivity.
  - repeat split; try reflexivity. discriminate.
Defined.

(** X25.  A map with a struct as a value (not a pointer to one) never
    encodes, whatever the other entries are: the element of a map is not
    addressable, so taking its address panics unless an earlier entry has
    failed already. *)
Theorem map_of_structs_never_encodes
    (json_Marshal : value -> result string) (path : string)
    (entries : list (MapKey * value)) (mapKey : MapKey)
    (fields : list (StructField * value)) (state state' : encodeState) :
  In (mapKey, StructValue fields) entries ->
  encode json_Marshal path (MapValue entries) state <> Ok state'.
Proof.
  intros Hin. cbn [encode].
  apply (mapKeys_struct_value _ path mapKey fields entries Hin).
Qed.

Lemma map_of_structs_never_encodes_witness :
  encode marshalInt "/d/entry.json"
    (MapValue [(PlainKey "k", PtrValue (Example.leaf 1));
               (PlainKey "j", Example.leaf 2)])
    {| Directory := EmptyString; Paths := [] |}
  <> Ok {| Directory := EmptyString;
           Paths := [{| Path := "/d/k/index.json";
                        Data := Str.js "{'X':1}" |}] |}.
Proof.
  apply (map_of_structs_never_encodes marshalInt "/d/entry.json"
           [(PlainKey "k", PtrValue (Example.leaf 1));
            (PlainKey "j", Example.leaf 2)]
           (PlainKey "j") [(Example.exported "X", IntValue 2)]).
  right. left. reflexivity.
Defined.
